(** * SetupService: the first-run setup wizard of the self-hosted module

    A shallow embedding of
    [src/backend/src/modules/selfhosted/SetupService.js] and the
    properties of its completion marker, setup-token gate, step registry,
    step pipeline and restart classifier.

    Conventions of the embedding.
    - JavaScript values that travel through request bodies and the
      configuration object are the type [JSVal]; objects used as maps are
      [gmap string JSVal].
    - Every method that awaits, touches the disk or may throw lives in the
      monad [M]: a state transformer over [State] whose result is either
      [Ok v] or [Throw msg], [msg] being the [message] of the JavaScript
      error.  [await] is sequencing in [M].
    - [safeLog] diagnostics are not part of the state; they never change
      control flow (the helper guards itself against a missing logger). *)

From stdpp Require Import gmap strings list sorting pretty.
From Stdlib Require Import ZArith Lia Ascii.

Local Open Scope Z_scope.

(** ** JavaScript values *)

Inductive JSVal : Type :=
| VUndef
| VNull
| VBool (b : bool)
| VNum (z : Z)
| VStr (s : string).

#[global] Instance JSVal_eq_dec : EqDecision JSVal.
Proof. solve_decision. Defined.

Abbreviation Obj := (gmap string JSVal).

(** [!!v] of JavaScript, for the values above. *)
Definition truthy (v : JSVal) : bool :=
  match v with
  | VUndef | VNull => false
  | VBool b => b
  | VNum z => negb (Z.eqb z 0)
  | VStr s => negb (String.eqb s EmptyString)
  end.

(** [a || b]. *)
Definition js_or (a b : JSVal) : JSVal := if truthy a then a else b.

(** [o.k]: a missing property reads as [undefined]. *)
Definition prop (o : Obj) (k : string) : JSVal := default VUndef (o !! k).

(** [k in o] for an object built from a literal and spreads. *)
Definition js_in (k : string) (o : Obj) : bool := bool_decide (is_Some (o !! k)).

(** [{ ...a, ...b }]: the keys of [b] win. *)
Definition spread (a b : Obj) : Obj := b ∪ a.

(** [a === b] on the values above. *)
Definition strict_eq (a b : JSVal) : bool := bool_decide (a = b).

(** String coercion, as performed by [+] with a string operand. *)
Definition js_to_string (v : JSVal) : string :=
  match v with
  | VUndef => "undefined"
  | VNull => "null"
  | VBool true => "true"
  | VBool false => "false"
  | VNum z => pretty z
  | VStr s => s
  end.

(** [String.prototype.trim], for the ASCII white space characters. *)
Definition is_space (a : Ascii.ascii) : bool :=
  let n := Ascii.nat_of_ascii a in
  (Nat.leb 9 n && Nat.leb n 13) || Nat.eqb n 32.

Fixpoint drop_spaces (s : string) : string :=
  match s with
  | String a r => if is_space a then drop_spaces r else s
  | EmptyString => EmptyString
  end.

Definition js_trim (s : string) : string :=
  String.rev (drop_spaces (String.rev (drop_spaces s))).

(** [s.replace(/\./g, "-")]. *)
Fixpoint dots_to_dashes (s : string) : string :=
  match s with
  | String a r =>
      String (if Ascii.eqb a "."%char then "-"%char else a) (dots_to_dashes r)
  | EmptyString => EmptyString
  end.

(** ** Collaborators *)

(** A row of the [user] table, as read by [helpers.get_user]. *)
Record UserRow : Type := mkUser {
  user_id : Z;
  user_uuid : string;
  user_name : string;
  user_password : string;
}.

(** What [updateAdminPassword] probes on a service: [service.knex],
    [service.query], and whether a statement sent to it throws. *)
Record DbService : Type := mkDb {
  has_knex : bool;
  has_query : bool;
  db_fails : bool;
}.

(** The [bcrypt] package: hashing with a salt and comparison. *)
Class Bcrypt : Type := {
  bcrypt_hash : string -> string -> string;
  bcrypt_compare : string -> string -> bool;
}.

(** Content of a file below the working directory.  [JSON.stringify] is not
    modelled: a file written from it holds the object. *)
Inductive Content : Type :=
| Text (s : string)
| JsonDoc (o : Obj).

(** ** The state of the process and of its disk

    [setupToken] and [tokenPath] are the two variables that the block at
    the top of [__on_install.routes] sets once, from [config/setup-token]
    or from a fresh random token; the handlers close over them.  That block
    runs before any request and is not modelled: a state holds what it
    left. *)

Record State : Type := mkState {
  files : gmap string Content;   (* paths under process.cwd() *)
  faulty : gset string;          (* paths on which mkdir/write/unlink throw *)
  setupCompleted : bool;         (* this.setupCompleted *)
  setupToken : option string;    (* [let setupToken] of __on_install.routes *)
  tokenPath : option string;     (* [let tokenPath] of __on_install.routes *)
  config : Obj;                  (* require("../../config") *)
  users : list UserRow;          (* the user table *)
  services : gmap string DbService;  (* this.services *)
  clock : string;                (* new Date().toISOString() *)
  nextSalt : string;             (* bcrypt.genSalt(10) *)
}.

Definition set_files (f : gmap string Content) (s : State) : State :=
  mkState f (faulty s) (setupCompleted s) (setupToken s) (tokenPath s)
    (config s) (users s) (services s) (clock s) (nextSalt s).

Definition set_faulty (f : gset string) (s : State) : State :=
  mkState (files s) f (setupCompleted s) (setupToken s) (tokenPath s)
    (config s) (users s) (services s) (clock s) (nextSalt s).

Definition set_setupCompleted (b : bool) (s : State) : State :=
  mkState (files s) (faulty s) b (setupToken s) (tokenPath s)
    (config s) (users s) (services s) (clock s) (nextSalt s).

Definition set_config (c : Obj) (s : State) : State :=
  mkState (files s) (faulty s) (setupCompleted s) (setupToken s) (tokenPath s)
    c (users s) (services s) (clock s) (nextSalt s).

Definition set_users (u : list UserRow) (s : State) : State :=
  mkState (files s) (faulty s) (setupCompleted s) (setupToken s) (tokenPath s)
    (config s) u (services s) (clock s) (nextSalt s).

(** ** The monad of effectful methods *)

(** The outcome of a call.  [Throw msg] is an [Error] thrown with message
    [msg]: what the service and Node's [fs] throw.  A value thrown that is
    no [Error] (a string, [null]) is not represented. *)
Inductive Result (A : Type) : Type :=
| Ok (a : A)
| Throw (msg : string).
Arguments Ok {A} a.
Arguments Throw {A} msg.

Definition M (A : Type) : Type := State -> Result A * State.

#[global] Instance M_ret : MRet M := fun A a s => (Ok a, s).

#[global] Instance M_bind : MBind M := fun A B f m s =>
  match m s with
  | (Ok a, s') => f a s'
  | (Throw e, s') => (Throw e, s')
  end.

Definition throw {A} (msg : string) : M A := fun s => (Throw msg, s).

(** [try { m } catch (e) { h e }]. *)
Definition try_catch {A} (m : M A) (h : string -> M A) : M A := fun s =>
  match m s with
  | (Ok a, s') => (Ok a, s')
  | (Throw e, s') => h e s'
  end.

Definition gets {A} (f : State -> A) : M A := fun s => (Ok (f s), s).
Definition modify (f : State -> State) : M unit := fun s => (Ok tt, f s).

(** ** The [fs] module *)

Definition config_dir : string := "config".
Definition path_join (dir name : string) : string := dir +:+ "/" +:+ name.

Definition setup_completed_path : string := path_join config_dir "setup-completed".
Definition setup_token_path : string := path_join config_dir "setup-token".
Definition admin_password_path : string := path_join config_dir "admin-password".
Definition wizard_config_path : string := path_join config_dir "wizard-config.json".
Definition password_log_path : string := path_join config_dir "admin-password-log.txt".

Definition fs_mkdir (p : string) : M unit := fun s =>
  if decide (p ∈ faulty s) then (Throw ("EACCES: mkdir " +:+ p), s) else (Ok tt, s).

Definition fs_existsSync (p : string) : M bool :=
  gets (fun s => bool_decide (is_Some (files s !! p))).

(** [fs.writeFile(p, data, "utf8")]: [data] that is not a string is refused
    with a [TypeError] before anything is written. *)
Definition fs_writeFile (p : string) (data : JSVal) : M unit := fun s =>
  match data with
  | VStr d =>
      if decide (p ∈ faulty s) then (Throw ("EACCES: open " +:+ p), s)
      else (Ok tt, set_files (<[p := Text d]> (files s)) s)
  | _ => (Throw "ERR_INVALID_ARG_TYPE", s)
  end.

(** [fs.writeFile(p, JSON.stringify(o, null, 2), "utf8")]. *)
Definition fs_writeJson (p : string) (o : Obj) : M unit := fun s =>
  if decide (p ∈ faulty s) then (Throw ("EACCES: open " +:+ p), s)
  else (Ok tt, set_files (<[p := JsonDoc o]> (files s)) s).

Definition fs_unlinkSync (p : string) : M unit := fun s =>
  if decide (p ∈ faulty s) then (Throw ("EACCES: unlink " +:+ p), s)
  else match files s !! p with
       | Some _ => (Ok tt, set_files (delete p (files s)) s)
       | None => (Throw ("ENOENT: unlink " +:+ p), s)
       end.

(** ** The completion marker *)

(** [isSetupCompleted]: [fs.access] on the marker; any failure is [false]. *)
Definition isSetupCompleted : M bool :=
  try_catch
    (fun s => match files s !! setup_completed_path with
              | Some _ => (Ok true, s)
              | None => (Throw ("ENOENT: access " +:+ setup_completed_path), s)
              end)
    (fun _ => mret false).

(** [markSetupCompleted(adminPassword)]. *)
Definition markSetupCompleted (adminPassword : JSVal) : M bool :=
  let configDir := config_dir in
  _ ← try_catch (fs_mkdir configDir) (fun _ => mret tt);
  let setupCompletedPath := path_join configDir "setup-completed" in
  timestamp ← gets clock;
  _ ← fs_writeFile setupCompletedPath (VStr timestamp);
  _ ← (if truthy adminPassword
       then fs_writeFile (path_join configDir "admin-password") adminPassword
       else mret tt);
  _ ← modify (set_setupCompleted true);
  mret true.

(** [updateConfig(newConfig)]: [Object.assign] on the live configuration
    object, then the record of what was applied. *)
Definition updateConfig (newConfig : Obj) : M bool :=
  _ ← modify (fun s => set_config (newConfig ∪ config s) s);
  let configDir := config_dir in
  _ ← try_catch (fs_mkdir configDir) (fun _ => mret tt);
  let configPath := path_join configDir "wizard-config.json" in
  _ ← fs_writeJson configPath newConfig;
  mret true.

(** ** The admin credential *)

Definition possibleServices : list string :=
  ["database"; "db"; "sql"; "sqlite"; "database-access"].

Fixpoint first_service (names : list string) (svcs : gmap string DbService)
  : option DbService :=
  match names with
  | [] => None
  | serviceName :: rest =>
      match svcs !! serviceName with
      | Some service => Some service
      | None => first_service rest svcs
      end
  end.

(** [findDatabaseService]. *)
Definition findDatabaseService : M DbService := fun s =>
  match first_service possibleServices (services s) with
  | Some service => (Ok service, s)
  | None => (Throw "No database service found", s)
  end.

(** [get_user({ username, cached: false })]. *)
Definition get_user (username : string) : M (option UserRow) :=
  gets (fun s => List.find (fun u => String.eqb (user_name u) username) (users s)).

(** [UPDATE user SET password = ? WHERE id = ?]. *)
Definition set_password (uid : Z) (passwordHash : string) (rows : list UserRow)
  : list UserRow :=
  map (fun u => if Z.eqb (user_id u) uid
                then mkUser (user_id u) (user_uuid u) (user_name u) passwordHash
                else u) rows.

Definition db_update (db : DbService) (uid : Z) (passwordHash : string) : M unit :=
  fun s => if db_fails db then (Throw "SQLITE_ERROR", s)
           else (Ok tt, set_users (set_password uid passwordHash (users s)) s).

Definition password_log_line (password now : string) : string :=
  "Admin password was set to: " +:+ password +:+ " at " +:+ now.

Section AdminPassword.
Context `{Bcrypt}.

(** [updateAdminPassword(password)].  The nested [catch] blocks of the
    source only log and rethrow. *)
Definition updateAdminPassword (password : string) : M unit :=
  if String.eqb password EmptyString || String.eqb (js_trim password) EmptyString
  then throw "Empty password provided"
  else
    let adminUsername := "admin" in
    user ← get_user adminUsername;
    match user with
    | None => throw "Admin user not found"
    | Some user =>
        salt ← gets nextSalt;
        let passwordHash := bcrypt_hash password salt in
        dbService ← findDatabaseService;
        _ ← (if has_knex dbService
             then db_update dbService (user_id user) passwordHash
             else if has_query dbService
             then db_update dbService (user_id user) passwordHash
             else throw "No valid query method found in database service");
        updatedUser ← get_user adminUsername;
        match updatedUser with
        | None => throw "Failed to verify password update"
        | Some updatedUser =>
            let passwordMatch := bcrypt_compare password (user_password updatedUser) in
            if passwordMatch
            then
              try_catch
                (now ← gets clock;
                 fs_writeFile (path_join config_dir "admin-password-log.txt")
                   (VStr (password_log_line password now)))
                (fun _ => mret tt)
            else throw "Password verification failed"
        end
    end.
End AdminPassword.

(** ** Requests *)

Record Request : Type := mkReq {
  path : string;
  method : string;
  query : Obj;
  body : Obj;
  ip : option string;
}.

(** ** Configuration steps *)

(** The presentation unit of a step.  The three stock templates are
    non-empty HTML literals; a template supplied by an extension is any
    string. *)
Inductive Template : Type :=
| SubdomainStepTemplate
| DomainStepTemplate
| PasswordStepTemplate
| CustomTemplate (html : string).

Abbreviation Process := (Obj -> Request -> M Obj).

(** An entry of [this.configSteps]. *)
Record ConfigStep : Type := mkStep {
  step_id : string;
  step_title : string;
  step_description : string;
  step_required : bool;
  step_order : Z;
  step_template : Template;
  step_process : Process;
}.

(** The [order] property of the object handed to [registerConfigStep]. *)
Inductive OrderField : Type :=
| OrderMissing
| OrderNull
| OrderInt (z : Z).

(** The object handed to [registerConfigStep]; [None] is an absent
    property. *)
Record StepDef : Type := mkDef {
  def_id : option string;
  def_title : option string;
  def_description : option string;
  def_required : option bool;
  def_order : OrderField;
  def_template : option Template;
  def_process : option Process;
}.

Definition truthy_string (o : option string) : bool :=
  match o with
  | Some s => negb (String.eqb s EmptyString)
  | None => false
  end.

Definition truthy_template (o : option Template) : bool :=
  match o with
  | Some (CustomTemplate html) => negb (String.eqb html EmptyString)
  | Some _ => true
  | None => false
  end.

(** [step.order || 999]. *)
Definition order_or_999 (o : OrderField) : Z :=
  match o with
  | OrderInt z => if Z.eqb z 0 then 999 else z
  | OrderMissing | OrderNull => 999
  end.

(** [Array.prototype.sort((a, b) => a.order - b.order)].  The built-in is a
    stable sort; it is modelled by stable insertion, and
    [stable_sort_unique] below shows that any stable sort gives the same
    array. *)
Fixpoint insert_by_order (x : ConfigStep) (l : list ConfigStep) : list ConfigStep :=
  match l with
  | [] => [x]
  | y :: r =>
      if Z.leb (step_order x) (step_order y) then x :: y :: r
      else y :: insert_by_order x r
  end.

Fixpoint sort_by_order (l : list ConfigStep) : list ConfigStep :=
  match l with
  | [] => []
  | x :: r => insert_by_order x (sort_by_order r)
  end.

(** The guard of [registerConfigStep] and the object literal it pushes:
    [None] when the guard throws. *)
Definition new_entry (step : StepDef) : option ConfigStep :=
  match def_id step, def_title step, def_template step, def_process step with
  | Some id, Some title, Some template, Some process =>
      if negb (truthy_string (def_id step)) || negb (truthy_string (def_title step))
         || negb (truthy_template (def_template step))
      then None
      else Some {| step_id := id;
                   step_title := title;
                   step_description := default EmptyString (def_description step);
                   step_required := match def_required step with
                                    | Some false => false
                                    | _ => true
                                    end;
                   step_order := order_or_999 (def_order step);
                   step_template := template;
                   step_process := process |}
  | _, _, _, _ => None
  end.

(** [registerConfigStep(step)] on the registry [this.configSteps]. *)
Definition registerConfigStep (step : StepDef) (configSteps : list ConfigStep)
  : Result (list ConfigStep) :=
  match new_entry step with
  | None => Throw "Configuration step must have id, title, template and process function"
  | Some entry => Ok (sort_by_order (configSteps ++ [entry]))
  end.

(** Registration of a sequence of steps, in order, stopping at the first
    one that is refused. *)
Fixpoint register_all (steps : list StepDef) (configSteps : list ConfigStep)
  : Result (list ConfigStep) :=
  match steps with
  | [] => Ok configSteps
  | step :: rest =>
      match registerConfigStep step configSteps with
      | Ok configSteps' => register_all rest configSteps'
      | Throw e => Throw e
      end
  end.

(** *** The three stock steps *)

Definition subdomain_process : Process := fun data _ =>
  mret {[ "experimental_no_subdomain" :=
            VBool (strict_eq (prop data "subdomainBehavior") (VStr "disabled")) ]}.

Definition domain_process : Process := fun data req =>
  if truthy (prop data "useNipIo")
  then match ip req with
       | Some addr => mret {[ "domain" := VStr (dots_to_dashes addr +:+ ".nip.io") ]}
       | None => throw "Cannot read properties of undefined (reading 'replace')"
       end
  else mret {[ "domain" := prop data "domainName" ]}.

Section DefaultSteps.
Context `{Bcrypt}.

Definition adminPassword_process : Process := fun data _ =>
  match prop data "adminPassword" with
  | VStr password =>
      if truthy (VStr password) && truthy (VStr (js_trim password))
      then try_catch (_ ← updateAdminPassword password; mret ∅)
                     (fun _ => mret ∅)
      else mret ∅
  | other =>
      if truthy other
      then throw "data.adminPassword.trim is not a function"
      else mret ∅
  end.

Definition defaultStepDefs : list StepDef :=
  [ mkDef (Some "subdomain") (Some "Subdomain Configuration")
      (Some "Configure how subdomains work in your Puter instance")
      (Some true) (OrderInt 10) (Some SubdomainStepTemplate)
      (Some subdomain_process);
    mkDef (Some "domain") (Some "Domain Configuration")
      (Some "Set up the domain name for your Puter instance")
      (Some true) (OrderInt 20) (Some DomainStepTemplate)
      (Some domain_process);
    mkDef (Some "adminPassword") (Some "Admin Password")
      (Some "Set the password for the admin user")
      (Some true) (OrderInt 30) (Some PasswordStepTemplate)
      (Some adminPassword_process) ].

(** [registerDefaultConfigSteps], on the empty registry that [_construct]
    leaves. *)
Definition registerDefaultConfigSteps : Result (list ConfigStep) :=
  register_all defaultStepDefs [].
End DefaultSteps.

(** ** The pipeline *)

(** The [for ... of] loop of [processConfigSteps], with its two
    accumulators.  Next to the outcome it yields the ids of the steps whose
    [process] was called, in call order. *)
Fixpoint processLoop (steps : list ConfigStep) (data : Obj) (req : Request)
    (config : Obj) (adminPassword : JSVal) (s : State)
  : list string * (Result (Obj * JSVal) * State) :=
  match steps with
  | [] => ([], (Ok (config, adminPassword), s))
  | step :: rest =>
      match step_process step data req s with
      | (Ok stepConfig, s') =>
          let adminPassword' :=
            if String.eqb (step_id step) "adminPassword"
               && truthy (prop data "adminPassword")
            then prop data "adminPassword" else adminPassword in
          let '(ran, out) :=
            processLoop rest data req (spread config stepConfig) adminPassword' s' in
          (step_id step :: ran, out)
      | (Throw e, s') => ([step_id step], (Throw e, s'))
      end
  end.

(** [processConfigSteps(data, req)]. *)
Definition processConfigSteps (configSteps : list ConfigStep) (data : Obj)
    (req : Request) : M Obj := fun s =>
  match snd (processLoop configSteps data req ∅ VNull s) with
  | (Ok (config, adminPassword), s') =>
      (Ok (if truthy adminPassword
           then <["__adminPassword" := adminPassword]> config
           else config), s')
  | (Throw e, s') => (Throw e, s')
  end.

(** The steps that a run of [processConfigSteps] calls, in call order. *)
Definition stepsRun (configSteps : list ConfigStep) (data : Obj)
    (req : Request) (s : State) : list string :=
  fst (processLoop configSteps data req ∅ VNull s).

(** ** The restart classifier *)

Definition restartRequiredOptions : list string :=
  ["domain"; "experimental_no_subdomain"; "http_port"; "api_base_url"; "origin"].

(** [requiresRestart(newConfig)]. *)
Definition requiresRestart (newConfig : Obj) : bool :=
  existsb (fun option => js_in option newConfig) restartRequiredOptions.

(** ** The token gate *)

Inductive Gate : Type :=
| Next
| RedirectTo (url : string).

Definition token_value (t : option string) : JSVal :=
  match t with
  | Some v => VStr v
  | None => VNull
  end.

(** The [verifySetupToken] middleware. *)
Definition verifySetupToken (req : Request) (s : State) : Gate :=
  if String.eqb (path req) "/__setup/token" then Next
  else if String.eqb (path req) "/__setup/reset-instructions" then Next
  else if String.eqb (path req) "/__setup" && String.eqb (method req) "GET" then Next
  else if String.eqb (path req) "/" && String.eqb (method req) "GET"
          && negb (setupCompleted s) then Next
  else
    let token := js_or (prop (query req) "token") (prop (body req) "token") in
    if negb (truthy token) || negb (strict_eq token (token_value (setupToken s)))
    then RedirectTo "/__setup/token"
    else Next.

(** ** Routes *)

Inductive Page : Type :=
| SetupTokenHTML (token : option string)
| ResetInstructionsHTML
| SetupWizardHTML (token : JSVal).

Inductive Response : Type :=
| Redirect (url : string)            (* res.redirect(url) *)
| Send (page : Page)                 (* res.send(html) *)
| Json (status : Z) (payload : Obj)  (* res.status(n).json(o); 200 by default *)
| Unrouted.                          (* left to the rest of the application *)

Definition failure_payload (message error : string) : Obj :=
  {[ "success" := VBool false; "message" := VStr message; "error" := VStr error ]}.

(** Handler of [POST /__setup/reset]. *)
Definition reset_handler (req : Request) : M Response :=
  try_catch
    (let setupCompletedPath := path_join config_dir "setup-completed" in
     present ← fs_existsSync setupCompletedPath;
     _ ← (if present : bool then fs_unlinkSync setupCompletedPath else mret tt);
     _ ← modify (set_setupCompleted false);
     token ← gets setupToken;
     mret (Json 200
       {[ "success" := VBool true;
          "message" := VStr "Configuration reset. Setup wizard will be displayed on next visit.";
          "setupToken" := token_value token ]}))
    (fun error => mret (Json 500 (failure_payload "Failed to reset configuration" error))).

Definition admin_password_shown (config : Obj) : string :=
  js_to_string (js_or (prop config "__adminPassword") (VStr "9668fafe")).

Definition success_payload (config : Obj) : Obj :=
  let needsRestart := requiresRestart config in
  {[ "success" := VBool true;
     "message" := VStr "Setup completed successfully";
     "requiresRestart" := VBool needsRestart;
     "instructions" := VStr
       ((if needsRestart
         then "Your configuration has been saved. Please restart the Puter server to apply changes. Admin username: admin, Admin password: "
         else "Your configuration has been saved and applied successfully. Admin username: admin, Admin password: ")
        +:+ admin_password_shown config) ]}.

(** Removal of the token after a successful setup. *)
Definition remove_setup_token : M unit :=
  token ← gets setupToken;
  if truthy (token_value token)
  then try_catch
         (tokenPath ← gets tokenPath;
          match tokenPath with
          | Some p => fs_unlinkSync p
          | None => throw "ERR_INVALID_ARG_TYPE"
          end)
         (fun _ => mret tt)
  else mret tt.

(** Handler of [POST /__setup/configure]. *)
Definition configure_handler (configSteps : list ConfigStep) (req : Request)
  : M Response :=
  try_catch
    (config ← processConfigSteps configSteps (body req) req;
     applied ← try_catch (_ ← updateConfig config; mret None)
       (fun configError =>
          mret (Some (Json 500 (failure_payload "Failed to update configuration" configError))));
     match applied with
     | Some response => mret response
     | None =>
         marked ← try_catch
           (_ ← markSetupCompleted (prop config "__adminPassword"); mret None)
           (fun setupError =>
              mret (Some (Json 500 (failure_payload "Failed to mark setup as completed" setupError))));
         match marked with
         | Some response => mret response
         | None =>
             _ ← remove_setup_token;
             mret (Json 200 (success_payload config))
         end
     end)
    (fun error => mret (Json 500 (failure_payload "Failed to complete setup" error))).

(** Handlers of the read-only routes. *)
Definition token_handler (req : Request) : M Response :=
  token ← gets setupToken; mret (Send (SetupTokenHTML token)).

Definition reset_instructions_handler (req : Request) : M Response :=
  mret (Send ResetInstructionsHTML).

Definition root_handler (req : Request) : M Response :=
  mret (Send (SetupWizardHTML (js_or (prop (query req) "token") (VStr EmptyString)))).

Definition wizard_handler (req : Request) : M Response :=
  completed ← gets setupCompleted;
  if completed : bool then mret (Redirect "/") else root_handler req.

Definition status_handler (req : Request) : M Response :=
  completed ← gets setupCompleted;
  now ← gets clock;
  mret (Json 200 {[ "setupCompleted" := VBool completed; "serverTime" := VStr now ]}).

(** The argument of one [Endpoint({ ... })] call. *)
Record EndpointSpec : Type := mkEndpoint {
  route : string;
  methods : list string;
  middleware : list (Request -> State -> Gate);
  handler : Request -> M Response;
}.

(** The endpoints that [__on_install.routes] attaches, in attachment order.
    [atRoot] says whether setup was incomplete when the routes were
    installed, which is when the wizard is also served at [/]. *)
Definition endpoints (configSteps : list ConfigStep) (atRoot : bool)
  : list EndpointSpec :=
  [ mkEndpoint "/__setup/token" ["GET"] [] token_handler;
    mkEndpoint "/__setup/reset" ["POST"] [verifySetupToken] reset_handler;
    mkEndpoint "/__setup/reset-instructions" ["GET"] [] reset_instructions_handler;
    mkEndpoint "/__setup" ["GET"] [] wizard_handler ]
  ++ (if atRoot then [mkEndpoint "/" ["GET"] [] root_handler] else [])
  ++ [ mkEndpoint "/api/status" ["GET"] [] status_handler;
       mkEndpoint "/__setup/configure" ["POST"] [] (configure_handler configSteps) ].

Fixpoint run_middleware (mws : list (Request -> State -> Gate)) (req : Request)
    (s : State) : Gate :=
  match mws with
  | [] => Next
  | mw :: rest =>
      match mw req s with
      | Next => run_middleware rest req s
      | RedirectTo url => RedirectTo url
      end
  end.

Definition matches (req : Request) (e : EndpointSpec) : bool :=
  String.eqb (route e) (path req)
  && existsb (String.eqb (method req)) (methods e).

(** Modelled from the spec: [Endpoint(...).attach(app)] of
    [util/expressutil], which is not among the sources.  Following the
    HTTP surface of the design (a method and a path select one handler,
    behind the gate the route names), a request goes to the first attached
    endpoint whose route and method match, through that endpoint's
    [middleware] list in order and then to its [handler]; a middleware that
    answers ends the request. *)
Definition serve_endpoint (e : EndpointSpec) (req : Request) : M Response := fun s =>
  match run_middleware (middleware e) req s with
  | Next => handler e req s
  | RedirectTo url => (Ok (Redirect url), s)
  end.

(** The [app.use] at the end of [__on_install.routes], installed when setup
    was incomplete. *)
Definition fallback (req : Request) : M Response := fun s =>
  if String.eqb (path req) "/"
     || String.prefix "/__setup" (path req)
     || String.prefix "/api/" (path req)
     || String.prefix "/assets/" (path req)
  then (Ok Unrouted, s)
  else
    let tokenParam := if truthy (token_value (setupToken s))
                      then "?token=" +:+ default EmptyString (setupToken s) else EmptyString in
    (Ok (Redirect ("/" +:+ tokenParam)), s).

Definition dispatch (configSteps : list ConfigStep) (atRoot : bool) (req : Request)
  : M Response :=
  match List.find (matches req) (endpoints configSteps atRoot) with
  | Some e => serve_endpoint e req
  | None => if atRoot then fallback req else mret Unrouted
  end.

(** ** Derived notions used by the statements *)

Section DefaultRegistry.
Context `{Bcrypt}.

(** The registry after [_init]: what [registerDefaultConfigSteps] builds
    (see [registerDefaultConfigSteps_eq]). *)
Definition defaultConfigSteps : list ConfigStep :=
  [ mkStep "subdomain" "Subdomain Configuration"
      "Configure how subdomains work in your Puter instance"
      true 10 SubdomainStepTemplate subdomain_process;
    mkStep "domain" "Domain Configuration"
      "Set up the domain name for your Puter instance"
      true 20 DomainStepTemplate domain_process;
    mkStep "adminPassword" "Admin Password"
      "Set the password for the admin user"
      true 30 PasswordStepTemplate adminPassword_process ].
End DefaultRegistry.

(** The setup artifacts that only the orchestration may write: the live
    configuration and its record, the completion marker and flag, the
    sidecar credential and the token. *)
Definition setup_paths : list string :=
  [setup_completed_path; setup_token_path; admin_password_path; wizard_config_path].

Definition untouched (s s' : State) : Prop :=
  config s' = config s
  ∧ setupCompleted s' = setupCompleted s
  ∧ setupToken s' = setupToken s
  ∧ tokenPath s' = tokenPath s
  ∧ faulty s' = faulty s
  ∧ ∀ p, p ∈ setup_paths → files s' !! p = files s !! p.

(** A step that leaves the setup artifacts to the orchestration. *)
Definition keeps_setup (process : Process) : Prop :=
  ∀ data req s out s', process data req s = (out, s') → untouched s s'.

(** A computation that relates every state to the state it leaves. *)
Definition preserves (R : relation State) {A} (m : M A) : Prop :=
  ∀ s out s', m s = (out, s') → R s s'.

(** Leaving the setup artifacts alone. *)
Abbreviation keeps := (preserves untouched).

(** The token in memory, against which the gate compares. *)
Definition token_kept (s s' : State) : Prop := setupToken s' = setupToken s.

(** Ascending [order], and the entries of order [k] in array order. *)
Definition ascending (x y : ConfigStep) : Prop := step_order x ≤ step_order y.

Definition of_order (k : Z) (l : list ConfigStep) : list ConfigStep :=
  filter (λ e, step_order e = k) l.

(** The calls of a run of the pipeline, stated without its loop: the
    [process] of each step of the array, in array order, each on the state
    that the call before it left, with the deltas that the calls returned. *)
Inductive calls (data : Obj) (req : Request)
  : list ConfigStep → State → list Obj → State → Prop :=
| calls_nil (s : State) : calls data req [] s [] s
| calls_cons (step : ConfigStep) (rest : list ConfigStep) (s s1 s' : State)
    (stepConfig : Obj) (deltas : list Obj) :
    step_process step data req s = (Ok stepConfig, s1) →
    calls data req rest s1 deltas s' →
    calls data req (step :: rest) s (stepConfig :: deltas) s'.

(** The deltas of a run merged in call order: the keys of a later delta
    win. *)
Definition merged (deltas : list Obj) : Obj := foldl spread ∅ deltas.

(** What a run that returned hands back: the merged deltas, with the
    submitted password under [__adminPassword] when a step named
    [adminPassword] was called and a password was submitted. *)
Definition pipeline_result (configSteps : list ConfigStep) (data : Obj)
    (deltas : list Obj) : Obj :=
  if bool_decide ("adminPassword" ∈ map step_id configSteps)
     && truthy (prop data "adminPassword")
  then <["__adminPassword" := prop data "adminPassword"]> (merged deltas)
  else merged deltas.

(** The place of a new entry in a sorted registry: behind every entry of
    its order or less, before every entry of a greater order. *)
Definition placed (entry : ConfigStep) (configSteps : list ConfigStep)
  : list ConfigStep :=
  filter (λ e, step_order e ≤ step_order entry) configSteps
  ++ entry :: filter (λ e, step_order entry < step_order e) configSteps.

(** The body of the answer of a reset that went through. *)
Definition reset_payload (s : State) : Obj :=
  {[ "success" := VBool true;
     "message" := VStr "Configuration reset. Setup wizard will be displayed on next visit.";
     "setupToken" := token_value (setupToken s) ]}.

(** A response that reports success to the client. *)
Definition succeeded (r : Result Response) : bool :=
  match r with
  | Ok (Json 200 payload) => strict_eq (prop payload "success") (VBool true)
  | _ => false
  end.

(** The restart policy, as a set of keys. *)
Definition restartPolicy : gset string := list_to_set restartRequiredOptions.

(** ** Example data *)

Module Sample.
(** A stand-in for bcrypt: the hash is the salt, a separator and the
    password; comparison checks the part after the separator. *)
Definition sample_hash (password salt : string) : string :=
  salt +:+ "$" +:+ password.

Definition sample_compare (password hash : string) : bool :=
  String.prefix (String.rev ("$" +:+ password)) (String.rev hash).

#[export] Instance sample_bcrypt : Bcrypt :=
  {| bcrypt_hash := sample_hash; bcrypt_compare := sample_compare |}.

(** The stock registry, over the stand-in. *)
Definition registry : list ConfigStep := @defaultConfigSteps sample_bcrypt.

(** A fresh instance: token on disk and in memory, setup not completed. *)
Definition fresh : State :=
  {| files := {[ setup_token_path := Text "5f2c9a" ]};
     faulty := ∅;
     setupCompleted := false;
     setupToken := Some "5f2c9a";
     tokenPath := Some setup_token_path;
     config := {[ "domain" := VStr "puter.localhost" ]};
     users := [mkUser 1 "b7e1" "admin" "$2b$10$old"];
     services := {[ "database" := mkDb true false false ]};
     clock := "2024-05-01T10:00:00.000Z";
     nextSalt := "$2b$10$salt" |}.

(** The fields that the wizard page submits. *)
Definition form : Obj :=
  {[ "subdomainBehavior" := VStr "disabled";
     "domainName" := VStr "example.com";
     "useNipIo" := VBool false;
     "adminPassword" := VStr "secretpw" ]}.

Definition configure_with (token : string) (fields : Obj) : Request :=
  mkReq "/__setup/configure" "POST" {[ "token" := VStr token ]} fields
    (Some "203.0.113.7").

Definition reset_with (token : string) : Request :=
  mkReq "/__setup/reset" "POST" {[ "token" := VStr token ]} ∅ (Some "203.0.113.7").

(** A submission whose password field is a JSON number. *)
Definition numeric_password : Obj := {[ "adminPassword" := VNum 5 ]}.

(** An instance whose setup was completed earlier. *)
Definition completed : State :=
  {| files := {[ setup_token_path := Text "5f2c9a";
                 setup_completed_path := Text "2024-04-30T09:00:00.000Z" ]};
     faulty := ∅;
     setupCompleted := true;
     setupToken := Some "5f2c9a";
     tokenPath := Some setup_token_path;
     config := {[ "domain" := VStr "example.com" ]};
     users := [mkUser 1 "b7e1" "admin" "$2b$10$old"];
     services := {[ "database" := mkDb true false false ]};
     clock := "2024-05-01T10:00:00.000Z";
     nextSalt := "$2b$10$salt" |}.

(** Two registrations under one id, with different [process] functions. *)
Definition first_x : StepDef :=
  mkDef (Some "x") (Some "X") None None (OrderInt 5)
    (Some (CustomTemplate "<p>x</p>"))
    (Some (fun _ _ => mret {[ "first" := VBool true ]})).

Definition second_x : StepDef :=
  mkDef (Some "x") (Some "X again") None None (OrderInt 5)
    (Some (CustomTemplate "<p>x</p>"))
    (Some (fun _ _ => mret {[ "second" := VBool true ]})).

Definition registered_once : list ConfigStep :=
  match registerConfigStep first_x [] with Ok reg => reg | Throw _ => [] end.

Definition registered_twice : list ConfigStep :=
  match registerConfigStep second_x registered_once with
  | Ok reg => reg
  | Throw _ => []
  end.

(** Steps registered out of order, two of them tied, one with order 0. *)
Definition step_at (id : string) (order : OrderField) : StepDef :=
  mkDef (Some id) (Some id) None None order
    (Some (CustomTemplate "<p></p>"))
    (Some (fun _ _ => mret {[ id := VBool true ]})).

Definition out_of_order : list StepDef :=
  [step_at "c" (OrderInt 30); step_at "a" (OrderInt 10); step_at "b" (OrderInt 30);
   step_at "z" (OrderInt 0)].

Definition in_order : list ConfigStep :=
  match register_all out_of_order [] with Ok reg => reg | Throw _ => [] end.

End Sample.

(** ** Start-up

    What runs before the first request: [_init], and the block at the top
    of [__on_install.routes] that reads or generates the setup token. *)

Definition set_setupToken (t : option string) (s : State) : State :=
  mkState (files s) (faulty s) (setupCompleted s) t (tokenPath s)
    (config s) (users s) (services s) (clock s) (nextSalt s).

Definition set_tokenPath (p : option string) (s : State) : State :=
  mkState (files s) (faulty s) (setupCompleted s) (setupToken s) p
    (config s) (users s) (services s) (clock s) (nextSalt s).

Section Startup.
(** [JSON.stringify(o, null, 2)], for a file that is read back as text. *)
Context (stringify : Obj → string).

(** [fs.readFileSync(p, "utf8")]. *)
Definition fs_readFileSync (p : string) : M string := fun s =>
  match files s !! p with
  | Some (Text t) => (Ok t, s)
  | Some (JsonDoc o) => (Ok (stringify o), s)
  | None => (Throw ("ENOENT: open " +:+ p), s)
  end.

(** The token block of [__on_install.routes]; [random] is the value of
    [crypto.randomBytes(32).toString("hex")]. *)
Definition load_setup_token (random : string) : M unit :=
  _ ← modify (set_setupToken None);
  _ ← modify (set_tokenPath None);
  _ ← try_catch
        (let p := path_join config_dir "setup-token" in
         _ ← modify (set_tokenPath (Some p));
         present ← fs_existsSync p;
         if present : bool
         then text ← fs_readFileSync p; modify (set_setupToken (Some text))
         else modify (set_setupToken None))
        (fun _ => mret tt);
  token ← gets setupToken;
  if negb (truthy (token_value token))
  then try_catch
         (_ ← modify (set_setupToken (Some random));
          let configDir := config_dir in
          _ ← try_catch (fs_mkdir configDir) (fun _ => mret tt);
          let p := path_join configDir "setup-token" in
          _ ← modify (set_tokenPath (Some p));
          fs_writeFile p (VStr random))
         (fun _ => mret tt)
  else mret tt.

(** [_init]: the stock steps, then the flag in memory from the marker. *)
Definition init `{Bcrypt} : M (list ConfigStep) :=
  match registerDefaultConfigSteps with
  | Throw e => throw e
  | Ok configSteps =>
      completed ← isSetupCompleted;
      _ ← modify (set_setupCompleted completed);
      mret configSteps
  end.

(** Start of the process: [_init], then the installation of the routes.
    The result is the registry and whether the wizard is attached at [/]. *)
Definition boot `{Bcrypt} (random : string) : M (list ConfigStep * bool) :=
  configSteps ← init;
  _ ← load_setup_token random;
  completed ← gets setupCompleted;
  mret (configSteps, negb completed).
End Startup.

(** The token that the start-up block finds on disk. *)
Definition token_on_disk (stringify : Obj → string) (s : State) : option string :=
  match files s !! setup_token_path with
  | Some (Text t) => Some t
  | Some (JsonDoc o) => Some (stringify o)
  | None => None
  end.

(** What the subdomain and domain steps contribute for a submission they
    accept, and the whole delta of the stock steps. *)
Definition stock_delta (data : Obj) (req : Request) : Obj :=
  <["domain" :=
      if truthy (prop data "useNipIo")
      then VStr (dots_to_dashes (default EmptyString (ip req)) +:+ ".nip.io")
      else prop data "domainName"]>
    {[ "experimental_no_subdomain" :=
         VBool (strict_eq (prop data "subdomainBehavior") (VStr "disabled")) ]}.

Definition default_delta (data : Obj) (req : Request) : Obj :=
  if truthy (prop data "adminPassword")
  then <["__adminPassword" := prop data "adminPassword"]> (stock_delta data req)
  else stock_delta data req.

(** ** More example data *)

Module Cases.
(** A bcrypt whose comparison rejects every hash. *)
#[export] Instance rejecting_bcrypt : Bcrypt :=
  {| bcrypt_hash := Sample.sample_hash; bcrypt_compare := λ _ _, false |}.

(** A submission whose password is three spaces. *)
Definition blank_form : Obj := {[ "adminPassword" := VStr "   " ]}.

(** A submission without any field. *)
Definition empty_form : Obj := ∅.

(** The fresh instance with other services registered. *)
Definition with_services (svcs : gmap string DbService) : State :=
  mkState (files Sample.fresh) (faulty Sample.fresh) false (Some "5f2c9a")
    (Some setup_token_path) (config Sample.fresh) (users Sample.fresh)
    svcs (clock Sample.fresh) (nextSalt Sample.fresh).

Definition two_services : State :=
  with_services {[ "sqlite" := mkDb false true false; "db" := mkDb true false true ]}.

Definition unknown_service : State :=
  with_services {[ "postgres" := mkDb true true false ]}.

(** The fresh instance on a disk that refuses one path. *)
Definition refusing (p : string) : State := set_faulty {[ p ]} Sample.fresh.

(** A stand-in for the serialisation of an object read back as text. *)
Definition render (o : Obj) : string := "{}".

(** The disk and memory that a successful submission leaves. *)
Definition after_setup : State :=
  snd (configure_handler Sample.registry
         (Sample.configure_with "5f2c9a" Sample.form) Sample.fresh).
End Cases.

(** Steps of an extension that act through [this]. *)
Module Probe.
(** The ids that the live configuration has collected under [visited]. *)
Definition visited (s : State) : string :=
  match config s !! "visited" with
  | Some (VStr ids) => ids
  | _ => EmptyString
  end.

(** A step that appends its id to [visited] and returns it under [last]. *)
Definition visit (id : string) : Process := fun _ _ =>
  _ ← modify (fun s =>
        set_config (<["visited" := VStr (visited s +:+ id)]> (config s)) s);
  mret {[ "last" := VStr id ]}.

Definition step_at (id : string) (order : OrderField) : StepDef :=
  mkDef (Some id) (Some id) None None order
    (Some (CustomTemplate "<p></p>")) (Some (visit id)).

(** Registered out of order, two of them tied, one with order 0. *)
Definition out_of_order : list StepDef :=
  [step_at "c" (OrderInt 30); step_at "a" (OrderInt 10); step_at "b" (OrderInt 30);
   step_at "z" (OrderInt 0)].

Definition in_order : list ConfigStep :=
  match register_all out_of_order [] with Ok reg => reg | Throw _ => [] end.

(** A step that commits on its own and then fails. *)
Definition hasty_process : Process := fun _ _ =>
  _ ← updateConfig {[ "domain" := VStr "early.example" ]};
  _ ← markSetupCompleted VUndef;
  throw "step failed".

Definition hasty : StepDef :=
  mkDef (Some "hasty") (Some "Hasty") None None (OrderInt 40)
    (Some (CustomTemplate "<p></p>")) (Some hasty_process).

Definition registry_with_hasty : list ConfigStep :=
  match registerConfigStep hasty Sample.registry with
  | Ok reg => reg
  | Throw _ => []
  end.
End Probe.

(** * Properties *)

(** ** The sort of the registry *)

Section Sorting.
Implicit Types (l r : list ConfigStep) (x y e : ConfigStep) (k : Z).

Lemma of_order_cons k x l :
  of_order k (x :: l)
  = if decide (step_order x = k) then x :: of_order k l else of_order k l.
Proof. unfold of_order. by rewrite filter_cons. Qed.

Lemma insert_by_order_elem x y l :
  y ∈ insert_by_order x l ↔ y = x ∨ y ∈ l.
Proof.
  induction l as [|z l IH]; simpl.
  - rewrite list_elem_of_singleton, elem_of_nil. tauto.
  - destruct (Z.leb _ _).
    + by rewrite (elem_of_cons (z :: l)).
    + rewrite !elem_of_cons, IH. tauto.
Qed.

Lemma insert_by_order_sorted x l :
  StronglySorted ascending l → StronglySorted ascending (insert_by_order x l).
Proof.
  induction 1 as [|z l Hl IH Hz]; simpl.
  - repeat constructor.
  - destruct (Z.leb_spec (step_order x) (step_order z)) as [Hle|Hlt].
    + constructor; [by constructor|].
      constructor; [done|].
      eapply Forall_impl; [exact Hz|]. unfold ascending. intros; lia.
    + constructor; [done|].
      apply Forall_forall. intros y Hy.
      apply insert_by_order_elem in Hy as [->|Hy].
      * unfold ascending. lia.
      * rewrite Forall_forall in Hz. by apply Hz.
Qed.

Lemma sort_by_order_sorted l : StronglySorted ascending (sort_by_order l).
Proof.
  induction l; simpl; [constructor | by apply insert_by_order_sorted].
Qed.

(** Insertion never moves an entry across one of the same order. *)
Lemma insert_by_order_of_order k x l :
  of_order k (insert_by_order x l) = of_order k (x :: l).
Proof.
  induction l as [|z l IH]; simpl; [done|].
  destruct (Z.leb_spec (step_order x) (step_order z)) as [Hle|Hlt]; [done|].
  rewrite (of_order_cons k z), IH, !of_order_cons.
  repeat case_decide; try done; lia.
Qed.

Lemma sort_by_order_of_order k l : of_order k (sort_by_order l) = of_order k l.
Proof.
  induction l as [|x l IH]; simpl; [done|].
  by rewrite insert_by_order_of_order, !of_order_cons, IH.
Qed.

Lemma insert_by_order_perm x l : insert_by_order x l ≡ₚ x :: l.
Proof.
  induction l as [|z l IH]; simpl; [done|].
  destruct (Z.leb _ _); [done|]. rewrite IH. apply Permutation_swap.
Qed.

Lemma sort_by_order_perm l : sort_by_order l ≡ₚ l.
Proof.
  induction l as [|x l IH]; simpl; [done|].
  by rewrite insert_by_order_perm, IH.
Qed.

(** A sorted array is determined by its classes of equal order: whatever
    stable algorithm the engine runs, the outcome is [sort_by_order]. *)
Lemma stable_sort_unique l r :
  StronglySorted ascending l → StronglySorted ascending r →
  (∀ k, of_order k l = of_order k r) → l = r.
Proof.
  intros Hl. revert r.
  induction Hl as [|x l Hl IH Hx]; intros r Hr Heq.
  - destruct r as [|y r]; [done|].
    specialize (Heq (step_order y)). rewrite of_order_cons in Heq.
    by rewrite decide_True in Heq.
  - destruct Hr as [|y r Hr Hy].
    { specialize (Heq (step_order x)). rewrite of_order_cons in Heq.
      by rewrite decide_True in Heq. }
    assert (step_order x = step_order y) as Hxy.
    { apply Z.le_antisymm.
      - assert (y ∈ of_order (step_order y) (x :: l)) as Hin.
        { rewrite Heq, of_order_cons, decide_True by done. left. }
        apply list_elem_of_filter in Hin as [_ Hin].
        apply elem_of_cons in Hin as [->|Hin]; [done|].
        rewrite Forall_forall in Hx. by apply Hx.
      - assert (x ∈ of_order (step_order x) (y :: r)) as Hin.
        { rewrite <- Heq, of_order_cons, decide_True by done. left. }
        apply list_elem_of_filter in Hin as [_ Hin].
        apply elem_of_cons in Hin as [->|Hin]; [done|].
        rewrite Forall_forall in Hy. by apply Hy. }
    pose proof (Heq (step_order x)) as Hhd.
    rewrite !of_order_cons, decide_True, decide_True in Hhd by done.
    injection Hhd as -> Htl. f_equal.
    apply IH; [done|]. intros k.
    specialize (Heq k). rewrite !of_order_cons in Heq.
    case_decide; [|done].
    by injection Heq.
Qed.

(** Sorting again after a push is sorting the whole history of pushes. *)
Lemma sort_by_order_push l e :
  sort_by_order (sort_by_order l ++ [e]) = sort_by_order (l ++ [e]).
Proof.
  apply stable_sort_unique; try apply sort_by_order_sorted.
  intros k. rewrite !sort_by_order_of_order. unfold of_order.
  rewrite !filter_app. f_equal. apply sort_by_order_of_order.
Qed.

End Sorting.

(** ** The registry *)

Lemma registerDefaultConfigSteps_eq `{Bcrypt} :
  registerDefaultConfigSteps = Ok defaultConfigSteps.
Proof. reflexivity. Qed.

Lemma registerConfigStep_ok step configSteps reg' :
  registerConfigStep step configSteps = Ok reg' →
  ∃ entry, new_entry step = Some entry
           ∧ reg' = sort_by_order (configSteps ++ [entry]).
Proof.
  unfold registerConfigStep. destruct (new_entry step) as [entry|]; [|done].
  intros [= <-]. by exists entry.
Qed.

Lemma new_entry_fields step entry :
  new_entry step = Some entry →
  def_id step = Some (step_id entry)
  ∧ def_process step = Some (step_process entry)
  ∧ step_order entry = order_or_999 (def_order step).
Proof.
  unfold new_entry.
  destruct (def_id step), (def_title step), (def_template step),
    (def_process step); try done.
  destruct (_ || _); [done|]. by intros [= <-].
Qed.

(** The registry is in ascending order after every registration. *)
Lemma registerConfigStep_sorted step configSteps reg' :
  registerConfigStep step configSteps = Ok reg' → StronglySorted ascending reg'.
Proof.
  intros (entry & _ & ->)%registerConfigStep_ok. apply sort_by_order_sorted.
Qed.

(** Registering a sequence of steps is sorting the sequence of pushes. *)
Lemma register_all_sorted_pushes steps configSteps reg :
  register_all steps (sort_by_order configSteps) = Ok reg →
  ∃ pushed, Forall2 (λ step entry, new_entry step = Some entry) steps pushed
            ∧ reg = sort_by_order (configSteps ++ pushed).
Proof.
  revert configSteps. induction steps as [|step rest IH]; intros configSteps; simpl.
  - intros [= <-]. exists []. split; [constructor|]. by rewrite app_nil_r.
  - destruct (registerConfigStep step _) as [configSteps'|] eqn:Hreg; [|done].
    apply registerConfigStep_ok in Hreg as (entry & Hentry & ->).
    rewrite sort_by_order_push. intros (pushed & Hpushed & ->)%IH.
    exists (entry :: pushed). split; [by constructor|].
    by rewrite <- app_assoc.
Qed.

(** ** The pipeline loop *)

Section Loop.
Context (data : Obj) (req : Request).

Lemma processLoop_prefix steps config adminPassword s :
  fst (processLoop steps data req config adminPassword s)
    `prefix_of` map step_id steps.
Proof.
  revert config adminPassword s.
  induction steps as [|step rest IH]; intros config adminPassword s; simpl.
  - done.
  - destruct (step_process step data req s) as [[stepConfig|e] s1].
    + match goal with |- context [processLoop rest data req ?c ?a ?t] =>
        specialize (IH c a t); destruct (processLoop rest data req c a t) as [ran out]
      end.
      simpl in *. by apply prefix_cons.
    + simpl. apply prefix_cons, prefix_nil.
Qed.

(** A run that returns has called every step, in array order. *)
Lemma processLoop_ok steps config adminPassword s v s' :
  snd (processLoop steps data req config adminPassword s) = (Ok v, s') →
  fst (processLoop steps data req config adminPassword s) = map step_id steps.
Proof.
  revert config adminPassword s.
  induction steps as [|step rest IH]; intros config adminPassword s; simpl.
  - done.
  - destruct (step_process step data req s) as [[stepConfig|e] s1]; [|done].
    match goal with |- context [processLoop rest data req ?c ?a ?t] =>
      specialize (IH c a t); destruct (processLoop rest data req c a t) as [ran out]
    end.
    simpl in *. intros Hout. by rewrite IH.
Qed.

(** A run that throws stops at the step that threw: the steps before it
    returned, the steps after it were not called, and the state is the
    one that step left. *)
Lemma processLoop_throw steps config adminPassword s e s' :
  snd (processLoop steps data req config adminPassword s) = (Throw e, s') →
  ∃ before step after config0 adminPassword0 s0,
    steps = before ++ step :: after
    ∧ snd (processLoop before data req config adminPassword s)
      = (Ok (config0, adminPassword0), s0)
    ∧ step_process step data req s0 = (Throw e, s')
    ∧ fst (processLoop steps data req config adminPassword s)
      = map step_id (before ++ [step]).
Proof.
  revert config adminPassword s.
  induction steps as [|step rest IH]; intros config adminPassword s; simpl.
  - done.
  - destruct (step_process step data req s) as [[stepConfig|e1] s1] eqn:Hstep.
    + match goal with |- context [processLoop rest data req ?c ?a ?t] =>
        specialize (IH c a t);
        destruct (processLoop rest data req c a t) as [ran out] eqn:Hrest
      end.
      simpl in *. intros Hout.
      destruct (IH Hout) as (before & step0 & after & c0 & a0 & s0 & -> & Hb & Hs & Hran).
      exists (step :: before), step0, after, c0, a0, s0.
      simpl. rewrite Hstep.
      match goal with |- context [processLoop before data req ?c ?a ?t] =>
        destruct (processLoop before data req c a t) as [ran' out'] eqn:Hbefore
      end.
      simpl in *. by rewrite Hran.
    + simpl. intros [= -> ->].
      by exists [], step, rest, config, adminPassword, s.
Qed.

Lemma untouched_refl s : untouched s s.
Proof. by repeat split. Qed.

Lemma untouched_trans s1 s2 s3 :
  untouched s1 s2 → untouched s2 s3 → untouched s1 s3.
Proof.
  intros (Ha1&Hb1&Hc1&Hd1&He1&Hf1) (Ha2&Hb2&Hc2&Hd2&He2&Hf2).
  repeat split; try congruence.
  intros p Hp. by rewrite Hf2, Hf1.
Qed.

Lemma processLoop_untouched steps config adminPassword s out s' :
  Forall (λ step, keeps_setup (step_process step)) steps →
  snd (processLoop steps data req config adminPassword s) = (out, s') →
  untouched s s'.
Proof.
  intros Hsteps. revert config adminPassword s.
  induction Hsteps as [|step rest Hstep _ IH]; intros config adminPassword s; simpl.
  - intros [= _ <-]. apply untouched_refl.
  - destruct (step_process step data req s) as [[stepConfig|e1] s1] eqn:Hrun.
    + match goal with |- context [processLoop rest data req ?c ?a ?t] =>
        specialize (IH c a t);
        destruct (processLoop rest data req c a t) as [ran out'] eqn:Hrest
      end.
      simpl in *. intros Hout. eapply untouched_trans; [by eapply Hstep|by apply IH].
    + simpl. intros [= _ <-]. by eapply Hstep.
Qed.
End Loop.

(** ** A run of the pipeline, call by call *)

Section Calls.
Context (data : Obj) (req : Request).

(** The loop returns exactly when the [process] of every step returns,
    called in array order; its accumulators are then the deltas merged in
    call order and the password captured. *)
Lemma processLoop_calls steps config adminPassword s config' adminPassword' s' :
  snd (processLoop steps data req config adminPassword s)
  = (Ok (config', adminPassword'), s')
  ↔ ∃ deltas,
      calls data req steps s deltas s'
      ∧ config' = foldl spread config deltas
      ∧ adminPassword'
        = (if bool_decide ("adminPassword" ∈ map step_id steps)
              && truthy (prop data "adminPassword")
           then prop data "adminPassword" else adminPassword).
Proof.
  revert config adminPassword s.
  induction steps as [|step rest IH]; intros config adminPassword s; simpl.
  - split.
    + intros [= <- <- <-]. exists []. by repeat split; [constructor|..].
    + intros (deltas & Hcalls & -> & ->). by inversion Hcalls; subst.
  - assert (∀ a : JSVal,
      (if bool_decide ("adminPassword" ∈ map step_id rest)
          && truthy (prop data "adminPassword")
       then prop data "adminPassword"
       else if String.eqb (step_id step) "adminPassword"
               && truthy (prop data "adminPassword")
            then prop data "adminPassword" else a)
      = (if bool_decide ("adminPassword" ∈ step_id step :: map step_id rest)
            && truthy (prop data "adminPassword")
         then prop data "adminPassword" else a)) as Hcaptured.
    { intros a. destruct (truthy (prop data "adminPassword"));
        [|by rewrite !andb_false_r].
      rewrite !andb_true_r.
      destruct (String.eqb_spec (step_id step) "adminPassword") as [Hid|Hid].
      - rewrite Hid, (bool_decide_eq_true_2 (_ ∈ _ :: _)) by left.
        by case_bool_decide.
      - destruct (decide ("adminPassword" ∈ map step_id rest)) as [Hin|Hin].
        + rewrite !bool_decide_eq_true_2; [done|by right|done].
        + rewrite !bool_decide_eq_false_2; [done| |done].
          rewrite elem_of_cons. intros [Heq|?]; [by apply Hid|done]. }
    destruct (step_process step data req s) as [[stepConfig|e] s1] eqn:Hstep.
    + match goal with |- context [processLoop rest data req ?c ?a ?t] =>
        specialize (IH c a t); destruct (processLoop rest data req c a t) as [ran out]
      end.
      simpl in *. rewrite IH. split.
      * intros (deltas & Hcalls & -> & ->). exists (stepConfig :: deltas).
        split; [by econstructor|]. split; [done|]. apply Hcaptured.
      * intros (deltas & Hcalls & -> & ->).
        inversion Hcalls as [|? ? ? s2 ? d ds Hcall Hrest]; subst.
        rewrite Hstep in Hcall. injection Hcall as <- <-.
        exists ds. split; [done|]. split; [done|]. symmetry. apply Hcaptured.
    + simpl. split; [done|].
      intros (deltas & Hcalls & _).
      inversion Hcalls as [|? ? ? s2 ? d ds Hcall Hrest]; subst. congruence.
Qed.

(** The loop stops at the step that throws: the steps after it are not
    called, and the state is the one that step left. *)
Lemma processLoop_stops before step after config adminPassword s deltas s0 e s' :
  calls data req before s deltas s0 →
  step_process step data req s0 = (Throw e, s') →
  processLoop (before ++ step :: after) data req config adminPassword s
  = (map step_id (before ++ [step]), (Throw e, s')).
Proof.
  intros Hcalls Hstep. revert config adminPassword.
  induction Hcalls as [s|first rest s s1 s0 d ds Hcall Hrest IH];
    intros config adminPassword; simpl.
  - by rewrite Hstep.
  - rewrite Hcall.
    match goal with |- context [processLoop ?l data req ?c ?a ?t] =>
      rewrite (IH Hstep c a)
    end.
    done.
Qed.

(** The loop throws exactly when the steps before some step return, called
    in array order, and the [process] of that step throws on the state they
    left; the state is then the one that step left. *)
Lemma processLoop_throws steps config adminPassword s e s' :
  snd (processLoop steps data req config adminPassword s) = (Throw e, s')
  ↔ ∃ before step after deltas s0,
      steps = before ++ step :: after
      ∧ calls data req before s deltas s0
      ∧ step_process step data req s0 = (Throw e, s').
Proof.
  split.
  - intros (before & step & after & c0 & a0 & s0 & -> & Hbefore & Hstep & _)
      %processLoop_throw.
    apply processLoop_calls in Hbefore as (deltas & Hcalls & _).
    by exists before, step, after, deltas, s0.
  - intros (before & step & after & deltas & s0 & -> & Hcalls & Hstep).
    by erewrite processLoop_stops.
Qed.

(** The calls of a run are determined by the array and the state. *)
Lemma calls_unique steps s deltas1 s1 deltas2 s2 :
  calls data req steps s deltas1 s1 → calls data req steps s deltas2 s2 →
  deltas1 = deltas2 ∧ s1 = s2.
Proof.
  intros Hone. revert deltas2 s2.
  induction Hone as [s|step rest s sa s1 d ds Hcall Hrest IH]; intros deltas2 s2 Htwo.
  - by inversion Htwo.
  - inversion Htwo as [|? ? ? sb ? d' ds' Hcall' Hrest']; subst.
    rewrite Hcall in Hcall'. injection Hcall' as <- <-.
    by destruct (IH _ _ Hrest') as [-> ->].
Qed.

Lemma calls_length steps s deltas s' :
  calls data req steps s deltas s' → length deltas = length steps.
Proof. induction 1; simpl; congruence. Qed.

(** Steps that leave the setup artifacts alone leave them alone together. *)
Lemma calls_untouched steps s deltas s' :
  Forall (λ step, keeps_setup (step_process step)) steps →
  calls data req steps s deltas s' → untouched s s'.
Proof.
  intros Hsteps Hcalls.
  induction Hcalls as [s|step rest s s1 s' d ds Hcall Hrest IH].
  - apply untouched_refl.
  - apply Forall_cons in Hsteps as [Hstep Hsteps].
    eapply untouched_trans; [by eapply Hstep|by apply IH].
Qed.
End Calls.

(** [processConfigSteps] returns exactly when every step returns, called in
    array order, and hands back the result of their deltas. *)
Lemma processConfigSteps_returns configSteps data req s config s' :
  processConfigSteps configSteps data req s = (Ok config, s')
  ↔ ∃ deltas, calls data req configSteps s deltas s'
              ∧ config = pipeline_result configSteps data deltas.
Proof.
  assert (∀ (captured : bool) (m : Obj),
    (if truthy (if captured && truthy (prop data "adminPassword")
                then prop data "adminPassword" else VNull)
     then <["__adminPassword" :=
              if captured && truthy (prop data "adminPassword")
              then prop data "adminPassword" else VNull]> m
     else m)
    = (if captured && truthy (prop data "adminPassword")
       then <["__adminPassword" := prop data "adminPassword"]> m else m))
    as Hresult.
  { intros captured m. destruct captured; simpl; [|done].
    by destruct (truthy (prop data "adminPassword")) eqn:Htruthy; simpl;
      rewrite ?Htruthy. }
  unfold processConfigSteps, pipeline_result, merged.
  destruct (snd (processLoop _ _ _ _ _ _)) as [[[c a]|e] s1] eqn:Hloop.
  - apply processLoop_calls in Hloop as (deltas & Hcalls & -> & ->).
    rewrite Hresult. split.
    + intros [= <- <-]. by exists deltas.
    + intros (deltas' & Hcalls' & ->).
      by destruct (calls_unique _ _ _ _ _ _ _ _ Hcalls Hcalls') as [-> ->].
  - split; [done|]. intros (deltas & Hcalls & _).
    assert (snd (processLoop configSteps data req ∅ VNull s)
            = (Ok (foldl spread ∅ deltas,
                   if bool_decide ("adminPassword" ∈ map step_id configSteps)
                      && truthy (prop data "adminPassword")
                   then prop data "adminPassword" else VNull), s')) as Hok.
    { apply processLoop_calls. by exists deltas. }
    congruence.
Qed.

(** [processConfigSteps] throws exactly when some step throws after the
    steps before it returned; the steps after it are not called. *)
Lemma processConfigSteps_throws configSteps data req s e s' :
  processConfigSteps configSteps data req s = (Throw e, s')
  ↔ ∃ before step after deltas s0,
      configSteps = before ++ step :: after
      ∧ calls data req before s deltas s0
      ∧ step_process step data req s0 = (Throw e, s').
Proof.
  rewrite <- (processLoop_throws data req configSteps ∅ VNull).
  unfold processConfigSteps.
  destruct (snd (processLoop _ _ _ _ _ _)) as [[[c a]|e1] s1]; split; congruence.
Qed.

(** ** The place of a new entry *)

Section Placing.
Implicit Types (l : list ConfigStep) (e x : ConfigStep) (k : Z).

Lemma of_order_at_most k e l :
  of_order k (filter (λ x, step_order x ≤ step_order e) l)
  = if decide (k ≤ step_order e) then of_order k l else [].
Proof.
  induction l as [|x l IH]; [by case_decide|].
  rewrite filter_cons, of_order_cons.
  destruct (decide (step_order x ≤ step_order e)) as [Hle|Hgt].
  - rewrite of_order_cons, IH. repeat case_decide; try done; lia.
  - rewrite IH. repeat case_decide; try done; lia.
Qed.

Lemma of_order_above k e l :
  of_order k (filter (λ x, step_order e < step_order x) l)
  = if decide (k ≤ step_order e) then [] else of_order k l.
Proof.
  induction l as [|x l IH]; [by case_decide|].
  rewrite filter_cons, of_order_cons.
  destruct (decide (step_order e < step_order x)) as [Hlt|Hge].
  - rewrite of_order_cons, IH. repeat case_decide; try done; lia.
  - rewrite IH. repeat case_decide; try done; lia.
Qed.

Lemma of_order_app k l r :
  of_order k (l ++ r) = of_order k l ++ of_order k r.
Proof. unfold of_order. apply filter_app. Qed.

Lemma placed_of_order k e l : of_order k (placed e l) = of_order k (l ++ [e]).
Proof.
  unfold placed.
  rewrite !of_order_app, !of_order_cons, of_order_at_most, of_order_above.
  repeat case_decide; try lia; by rewrite ?app_nil_r.
Qed.

Lemma filter_sorted (P : ConfigStep → Prop) `{∀ x, Decision (P x)} l :
  StronglySorted ascending l → StronglySorted ascending (filter P l).
Proof.
  induction 1 as [|x l Hl IH Hx]; [constructor|].
  rewrite filter_cons. case_decide; [|done].
  constructor; [done|]. rewrite Forall_forall in Hx.
  apply Forall_forall. intros y [_ Hy]%list_elem_of_filter. by apply Hx.
Qed.

Lemma placed_sorted e l :
  StronglySorted ascending l → StronglySorted ascending (placed e l).
Proof.
  intros Hl. unfold placed. apply StronglySorted_app_2.
  - intros x y [Hx _]%list_elem_of_filter Hy. unfold ascending.
    apply elem_of_cons in Hy as [->|[Hy _]%list_elem_of_filter]; lia.
  - by apply filter_sorted.
  - constructor; [by apply filter_sorted|].
    apply Forall_forall. intros x [Hx _]%list_elem_of_filter.
    unfold ascending. lia.
Qed.

(** In a sorted registry the old entries keep their places. *)
Lemma placed_keeps e l :
  StronglySorted ascending l →
  filter (λ x, step_order x ≤ step_order e) l
  ++ filter (λ x, step_order e < step_order x) l = l.
Proof.
  intros Hl. apply stable_sort_unique; [|done|].
  - apply StronglySorted_app_2; [|by apply filter_sorted..].
    intros x y [Hx _]%list_elem_of_filter [Hy _]%list_elem_of_filter.
    unfold ascending. lia.
  - intros k. rewrite of_order_app, of_order_at_most, of_order_above.
    case_decide; by rewrite ?app_nil_r.
Qed.

Lemma sort_by_order_placed e l :
  StronglySorted ascending l → sort_by_order (l ++ [e]) = placed e l.
Proof.
  intros Hl. apply stable_sort_unique.
  - apply sort_by_order_sorted.
  - by apply placed_sorted.
  - intros k. by rewrite sort_by_order_of_order, placed_of_order.
Qed.
End Placing.

(** ** Claims about the registry and the pipeline order *)

(** C6.  For every sequence of registrations that the registry accepts,
    starting from the empty registry: the registry ends in ascending
    [order]; it holds exactly the pushed entries, and entries of equal order
    stand in registration order (the sort is stable).  The pipeline executes
    in that order: a run returns exactly when the [process] of every entry
    returns, called in the order of the registry, each on the state that
    the call before it left, and it hands back their deltas merged in that
    order; a run throws exactly when an entry throws after the entries
    before it returned, and the entries behind it are not called.  Since
    this holds for every sequence, it holds after every insertion. *)
Theorem pipeline_runs_in_ascending_order
    (steps : list StepDef) (reg : list ConfigStep)
    (data : Obj) (req : Request) (s : State) :
  register_all steps [] = Ok reg →
  ∃ pushed,
    Forall2 (λ step entry, new_entry step = Some entry) steps pushed
    ∧ StronglySorted ascending reg
    ∧ reg ≡ₚ pushed
    ∧ (∀ k, of_order k reg = of_order k pushed)
    ∧ (∀ config s',
         processConfigSteps reg data req s = (Ok config, s')
         ↔ ∃ deltas, calls data req reg s deltas s'
                     ∧ config = pipeline_result reg data deltas)
    ∧ (∀ e s',
         processConfigSteps reg data req s = (Throw e, s')
         ↔ ∃ before step after deltas s0,
             reg = before ++ step :: after
             ∧ calls data req before s deltas s0
             ∧ step_process step data req s0 = (Throw e, s'))
    ∧ stepsRun reg data req s `prefix_of` map step_id reg
    ∧ (∀ config s', processConfigSteps reg data req s = (Ok config, s') →
         stepsRun reg data req s = map step_id reg).
Proof.
  intros Hreg.
  apply (register_all_sorted_pushes steps []) in Hreg as (pushed & Hpushed & ->).
  exists pushed. simpl.
  split; [done|]. split; [apply sort_by_order_sorted|].
  split; [apply sort_by_order_perm|].
  split; [intros k; apply sort_by_order_of_order|].
  split; [intros config s'; apply processConfigSteps_returns|].
  split; [intros e s'; apply processConfigSteps_throws|].
  split; [apply processLoop_prefix|].
  intros config s'. unfold processConfigSteps, stepsRun.
  destruct (snd (processLoop _ data req ∅ VNull s)) as [[[c a]|e] s1] eqn:Hrun;
    [|done].
  intros _. by eapply processLoop_ok.
Qed.

Lemma pipeline_runs_in_ascending_order_witness :
  register_all Probe.out_of_order [] = Ok Probe.in_order
  ∧ StronglySorted ascending Probe.in_order
  ∧ map step_order Probe.in_order = [10; 30; 30; 999]
  ∧ map step_id Probe.in_order = ["a"; "c"; "b"; "z"]
  ∧ fst (processConfigSteps Probe.in_order ∅ (Sample.reset_with "5f2c9a")
           Sample.fresh)
    = Ok {[ "last" := VStr "z" ]}
  ∧ Probe.visited (snd (processConfigSteps Probe.in_order ∅
                          (Sample.reset_with "5f2c9a") Sample.fresh))
    = "acbz".
Proof.
  destruct (pipeline_runs_in_ascending_order Probe.out_of_order Probe.in_order ∅
              (Sample.reset_with "5f2c9a") Sample.fresh eq_refl)
    as (pushed & _ & Hsorted & _ & _ & Hreturns & _).
  split; [reflexivity|]. split; [exact Hsorted|].
  split; [reflexivity|]. split; [reflexivity|].
  eassert (processConfigSteps Probe.in_order ∅ (Sample.reset_with "5f2c9a")
             Sample.fresh = (Ok _, _)) as Hrun.
  { apply Hreturns. eexists. split; [|reflexivity].
    repeat (eapply calls_cons; [reflexivity|]). apply calls_nil. }
  rewrite Hrun. split; by vm_compute.
Defined.



(** C4, as the code has it.  Registering a step never replaces an entry:
    whether or not its id is already present, the registry is the old
    entries and one new entry (carrying the newly registered [process]),
    re-sorted: it is in ascending order, and entries of equal order,
    whatever their ids, stand as they did, with the new entry behind them;
    in a registry that was sorted the old entries keep their places.  The
    count grows by one.  A run returns exactly when the [process] of every
    entry returns, each entry of the same id included, called in the order
    of the registry, and it hands back the deltas of all of them. *)
Theorem registering_always_appends
    (step : StepDef) (configSteps reg' : list ConfigStep) :
  registerConfigStep step configSteps = Ok reg' →
  ∃ entry,
    new_entry step = Some entry
    ∧ def_process step = Some (step_process entry)
    ∧ length reg' = S (length configSteps)
    ∧ reg' ≡ₚ configSteps ++ [entry]
    ∧ StronglySorted ascending reg'
    ∧ (∀ k, of_order k reg' = of_order k (configSteps ++ [entry]))
    ∧ (StronglySorted ascending configSteps → reg' = placed entry configSteps)
    ∧ (∀ data req s config s',
         processConfigSteps reg' data req s = (Ok config, s')
         ↔ ∃ deltas, calls data req reg' s deltas s'
                     ∧ length deltas = S (length configSteps)
                     ∧ config = pipeline_result reg' data deltas).
Proof.
  intros (entry & Hentry & ->)%registerConfigStep_ok.
  assert (length (sort_by_order (configSteps ++ [entry])) = S (length configSteps))
    as Hlength by (rewrite sort_by_order_perm, length_app; simpl; lia).
  exists entry. split; [done|].
  split; [by apply new_entry_fields in Hentry as (_ & ? & _)|].
  split; [done|].
  split; [apply sort_by_order_perm|].
  split; [apply sort_by_order_sorted|].
  split; [intros k; apply sort_by_order_of_order|].
  split; [apply sort_by_order_placed|].
  intros data req s config s'. rewrite processConfigSteps_returns.
  split.
  - intros (deltas & Hcalls & ->). exists deltas. split; [done|]. split; [|done].
    apply calls_length in Hcalls. congruence.
  - intros (deltas & Hcalls & _ & ->). by exists deltas.
Qed.

Lemma registering_always_appends_witness :
  registerConfigStep Sample.second_x Sample.registered_once
  = Ok Sample.registered_twice
  ∧ length Sample.registered_twice = S (length Sample.registered_once)
  ∧ map step_title Sample.registered_twice = ["X"; "X again"]
  ∧ fst (processConfigSteps Sample.registered_twice ∅ (Sample.reset_with "5f2c9a")
           Sample.fresh)
    = Ok {[ "first" := VBool true; "second" := VBool true ]}.
Proof.
  split; [reflexivity|].
  destruct (registering_always_appends Sample.second_x Sample.registered_once
              Sample.registered_twice eq_refl)
    as (entry & Hentry & _ & Hlen & _ & _ & _ & Hplaced & Hreturns).
  split; [exact Hlen|]. split.
  - rewrite Hplaced by (repeat constructor). injection Hentry as <-. reflexivity.
  - eassert (processConfigSteps Sample.registered_twice ∅
               (Sample.reset_with "5f2c9a") Sample.fresh = (Ok _, _)) as Hrun.
    { apply Hreturns. eexists.
      split; [repeat (eapply calls_cons; [reflexivity|]); apply calls_nil|].
      split; reflexivity. }
    rewrite Hrun. by vm_compute.
Defined.

(** C4, as stated, fails: registering id ["x"] a second time leaves two
    entries, and a run calls both [process] functions. *)
Lemma reregistering_keeps_the_old_entry :
  registerConfigStep Sample.first_x [] = Ok Sample.registered_once
  ∧ registerConfigStep Sample.second_x Sample.registered_once
    = Ok Sample.registered_twice
  ∧ map step_id Sample.registered_once = ["x"]
  ∧ map step_id Sample.registered_twice = ["x"; "x"]
  ∧ length Sample.registered_twice ≠ length Sample.registered_once
  ∧ stepsRun Sample.registered_twice ∅ (Sample.reset_with "5f2c9a") Sample.fresh
    = ["x"; "x"]
  ∧ fst (processConfigSteps Sample.registered_twice ∅ (Sample.reset_with "5f2c9a")
           Sample.fresh)
    = Ok {[ "first" := VBool true; "second" := VBool true ]}.
Proof.
  split; [reflexivity|]. split; [reflexivity|]. split; [reflexivity|].
  split; [reflexivity|]. split; [simpl; lia|]. split; [reflexivity|].
  by vm_compute.
Qed.

(** ** The restart classifier *)

(** C7.  [requiresRestart] is a total function of the new configuration
    alone; it answers [true] exactly when a changed key is in the restart
    policy, in particular for [domain], not for an unrelated key, and not
    for the empty change. *)
Theorem requiresRestart_iff_policy_key_changed :
  (∀ newConfig : Obj,
     requiresRestart newConfig = true ↔ dom newConfig ∩ restartPolicy ≠ ∅)
  ∧ (∀ v, requiresRestart {[ "domain" := v ]} = true)
  ∧ (∀ v, requiresRestart {[ "unrelated_key" := v ]} = false)
  ∧ requiresRestart ∅ = false.
Proof.
  split; [|split; [|split]].
  - intros newConfig. unfold requiresRestart, restartPolicy.
    rewrite existsb_exists. split.
    + intros (k & Hk & Hin). unfold js_in in Hin.
      apply bool_decide_eq_true in Hin. apply elem_of_dom in Hin.
      intros Hempty. apply (not_elem_of_empty (C:=gset string) k).
      rewrite <- Hempty. apply elem_of_intersection. split; [done|].
      apply elem_of_list_to_set. by apply list_elem_of_In.
    + intros Hne. apply set_choose_L in Hne as (k & Hk).
      apply elem_of_intersection in Hk as [Hdom Hpol].
      exists k. split.
      * apply list_elem_of_In. by apply elem_of_list_to_set in Hpol.
      * unfold js_in. apply bool_decide_eq_true. by apply elem_of_dom.
  - intros v. unfold requiresRestart, js_in. simpl.
    by rewrite lookup_singleton_eq.
  - intros v. unfold requiresRestart, js_in. simpl.
    by rewrite !lookup_singleton_ne.
  - done.
Qed.

(** ** Computations that preserve a relation on states *)

Section Preserves.
Context (R : relation State) `{!PreOrder R}.

Context {A B : Type}.

Lemma preserves_ret (a : A) : preserves R (mret a).
Proof. by intros s out s' [= _ <-]. Qed.

Lemma preserves_throw (e : string) : preserves R (throw (A:=A) e).
Proof. by intros s out s' [= _ <-]. Qed.

Lemma preserves_gets (f : State → A) : preserves R (gets f).
Proof. by intros s out s' [= _ <-]. Qed.

Lemma preserves_bind (m : M A) (f : A → M B) :
  preserves R m → (∀ a, preserves R (f a)) → preserves R (m ≫= f).
Proof.
  intros Hm Hf s out s'. unfold mbind, M_bind.
  destruct (m s) as [[a|e] s1] eqn:Hrun.
  - intros Hout. trans s1; [by eapply Hm|by eapply Hf].
  - intros [= _ <-]. by eapply Hm.
Qed.

Lemma preserves_try_catch (m : M A) (h : string → M A) :
  preserves R m → (∀ e, preserves R (h e)) → preserves R (try_catch m h).
Proof.
  intros Hm Hh s out s'. unfold try_catch.
  destruct (m s) as [[a|e] s1] eqn:Hrun.
  - intros [= _ <-]. by eapply Hm.
  - intros Hout. trans s1; [by eapply Hm|by eapply Hh].
Qed.
End Preserves.

#[global] Instance untouched_preorder : PreOrder untouched.
Proof. split; [exact untouched_refl|exact untouched_trans]. Qed.

Section Keeps.
Context {A B : Type}.

Lemma keeps_ret (a : A) : keeps (mret a).
Proof. apply (preserves_ret untouched). Qed.

Lemma keeps_throw (e : string) : keeps (throw (A:=A) e).
Proof. apply (preserves_throw untouched). Qed.

Lemma keeps_gets (f : State → A) : keeps (gets f).
Proof. apply (preserves_gets untouched). Qed.

Lemma keeps_bind (m : M A) (f : A → M B) :
  keeps m → (∀ a, keeps (f a)) → keeps (m ≫= f).
Proof. apply (preserves_bind untouched). Qed.

Lemma keeps_try_catch (m : M A) (h : string → M A) :
  keeps m → (∀ e, keeps (h e)) → keeps (try_catch m h).
Proof. apply (preserves_try_catch untouched). Qed.
End Keeps.

Lemma keeps_db_update db uid passwordHash : keeps (db_update db uid passwordHash).
Proof.
  intros s out s'. unfold db_update.
  destruct (db_fails db); intros [= _ <-]; by repeat split.
Qed.

Lemma keeps_findDatabaseService : keeps findDatabaseService.
Proof.
  intros s out s'. unfold findDatabaseService.
  destruct (first_service _ _); intros [= _ <-]; apply untouched_refl.
Qed.

Lemma keeps_fs_writeFile p data : p ∉ setup_paths → keeps (fs_writeFile p data).
Proof.
  intros Hp s out s'. unfold fs_writeFile.
  destruct data; try (intros [= _ <-]; apply untouched_refl).
  case_decide; intros [= _ <-]; [apply untouched_refl|].
  repeat split. intros q Hq. simpl.
  apply lookup_insert_ne. by intros ->.
Qed.

Lemma password_log_is_no_setup_path : password_log_path ∉ setup_paths.
Proof.
  intros Hin. unfold setup_paths in Hin.
  repeat (apply elem_of_cons in Hin as [Heq|Hin]; [by vm_compute in Heq|]).
  by apply elem_of_nil in Hin.
Qed.

Section DefaultStepsKeep.
Context `{Bcrypt}.

Lemma keeps_updateAdminPassword password : keeps (updateAdminPassword password).
Proof.
  unfold updateAdminPassword.
  destruct (_ || _); [apply keeps_throw|].
  apply keeps_bind; [apply keeps_gets|]. intros [user|]; [|apply keeps_throw].
  apply keeps_bind; [apply keeps_gets|]. intros salt.
  apply keeps_bind; [apply keeps_findDatabaseService|]. intros dbService.
  apply keeps_bind.
  { destruct (has_knex dbService); [apply keeps_db_update|].
    destruct (has_query dbService); [apply keeps_db_update|apply keeps_throw]. }
  intros _. apply keeps_bind; [apply keeps_gets|].
  intros [updatedUser|]; [|apply keeps_throw].
  destruct (bcrypt_compare _ _); [|apply keeps_throw].
  apply keeps_try_catch; [|intros; apply keeps_ret].
  apply keeps_bind; [apply keeps_gets|]. intros now.
  apply keeps_fs_writeFile, password_log_is_no_setup_path.
Qed.

Lemma keeps_setup_adminPassword : keeps_setup adminPassword_process.
Proof.
  intros data req. fold (keeps (adminPassword_process data req)).
  unfold adminPassword_process.
  destruct (prop data "adminPassword") as [| |b|z|password];
    try (destruct (truthy _); [apply keeps_throw|apply (keeps_ret (A:=Obj))]).
  destruct (_ && _); [|apply (keeps_ret (A:=Obj))].
  apply keeps_try_catch; [|intros; apply (keeps_ret (A:=Obj))].
  apply keeps_bind; [apply keeps_updateAdminPassword|].
  intros; apply (keeps_ret (A:=Obj)).
Qed.

Lemma keeps_setup_subdomain : keeps_setup subdomain_process.
Proof. intros data req s out s' [= _ <-]. apply untouched_refl. Qed.

Lemma keeps_setup_domain : keeps_setup domain_process.
Proof.
  intros data req s out s'. unfold domain_process.
  destruct (truthy _); [destruct (ip req)|]; intros [= _ <-];
    apply untouched_refl.
Qed.

(** The stock steps leave the setup artifacts to the orchestration. *)
Lemma default_steps_keep_setup :
  Forall (λ step, keeps_setup (step_process step)) defaultConfigSteps.
Proof.
  unfold defaultConfigSteps.
  apply Forall_cons. split; [apply keeps_setup_subdomain|].
  apply Forall_cons. split; [apply keeps_setup_domain|].
  apply Forall_cons. split; [apply keeps_setup_adminPassword|].
  apply Forall_nil_2.
Qed.
End DefaultStepsKeep.

(** ** A step that throws *)

Lemma processConfigSteps_throw configSteps data req s e s' :
  processConfigSteps configSteps data req s = (Throw e, s') →
  snd (processLoop configSteps data req ∅ VNull s) = (Throw e, s').
Proof.
  unfold processConfigSteps.
  by destruct (snd (processLoop _ _ _ _ _ _)) as [[[c a]|e1] s1]; intros [= <- <-].
Qed.

Lemma isSetupCompleted_eq s :
  isSetupCompleted s
  = (Ok (bool_decide (is_Some (files s !! setup_completed_path))), s).
Proof.
  unfold isSetupCompleted, try_catch.
  by destruct (files s !! setup_completed_path).
Qed.

Lemma untouched_gate s s' req :
  untouched s s' → verifySetupToken req s' = verifySetupToken req s.
Proof.
  intros (_ & Hcompleted & Htoken & _). unfold verifySetupToken.
  by rewrite Hcompleted, Htoken.
Qed.

(** C5, as the code has it.  When a step of the pipeline throws after the
    steps before it returned: the pipeline aborts with that error, in the
    state that the step left, and the steps behind it are not called,
    whatever they are; the handler answers with the failure and the
    message of the error, and does nothing else: it commits no delta,
    marks nothing and leaves the token file.  If moreover the steps that
    were called leave the setup artifacts to the orchestration, as the
    stock steps do, then the live configuration and its record, the
    completion flag and marker and the token, in memory and on disk, are
    as before, and the gate answers every later request as it did, so the
    submission can be retried. *)
Theorem failing_step_aborts_setup
    (before after : list ConfigStep) (step : ConfigStep) (req : Request)
    (s s0 s' : State) (deltas : list Obj) (e : string) :
  calls (body req) req before s deltas s0 →
  step_process step (body req) req s0 = (Throw e, s') →
  let configSteps := before ++ step :: after in
  processConfigSteps configSteps (body req) req s = (Throw e, s')
  ∧ stepsRun configSteps (body req) req s = map step_id (before ++ [step])
  ∧ configure_handler configSteps req s
    = (Ok (Json 500 (failure_payload "Failed to complete setup" e)), s')
  ∧ (Forall (λ called, keeps_setup (step_process called)) (before ++ [step]) →
       config s' = config s
       ∧ files s' !! wizard_config_path = files s !! wizard_config_path
       ∧ setupCompleted s' = setupCompleted s
       ∧ fst (isSetupCompleted s') = fst (isSetupCompleted s)
       ∧ setupToken s' = setupToken s
       ∧ files s' !! setup_token_path = files s !! setup_token_path
       ∧ (∀ retry, verifySetupToken retry s' = verifySetupToken retry s)).
Proof.
  intros Hcalls Hstep. cbv zeta.
  assert (processConfigSteps (before ++ step :: after) (body req) req s
          = (Throw e, s')) as Hthrow.
  { apply processConfigSteps_throws. by exists before, step, after, deltas, s0. }
  split; [done|]. split.
  { unfold stepsRun.
    by rewrite (processLoop_stops _ _ _ _ after ∅ VNull _ _ _ _ _ Hcalls Hstep). }
  split.
  { unfold configure_handler, try_catch, mbind, M_bind. by rewrite Hthrow. }
  intros [Hbefore Hlast]%Forall_app.
  assert (untouched s s') as Hsame.
  { apply (untouched_trans s s0 s').
    - by apply (calls_untouched (body req) req before s deltas s0).
    - rewrite Forall_singleton in Hlast.
      by apply (Hlast (body req) req s0 (Throw e)). }
  pose proof Hsame as (Hconfig & Hflag & Htoken & _ & _ & Hfiles).
  assert (∀ p, p ∈ setup_paths → files s' !! p = files s !! p) as Hat by done.
  repeat split; try done.
  - apply Hat. unfold setup_paths. rewrite !elem_of_cons. tauto.
  - rewrite !isSetupCompleted_eq. simpl. f_equal. f_equal.
    rewrite Hat; [done|]. unfold setup_paths. rewrite !elem_of_cons. tauto.
  - apply Hat. unfold setup_paths. rewrite !elem_of_cons. tauto.
  - intros retry. by apply untouched_gate.
Qed.

Lemma failing_step_aborts_setup_witness :
  let req := Sample.configure_with "5f2c9a" Sample.numeric_password in
  let out := configure_handler Probe.registry_with_hasty req Sample.fresh in
  out = (Ok (Json 500 (failure_payload "Failed to complete setup"
                         "data.adminPassword.trim is not a function")),
         Sample.fresh)
  ∧ stepsRun Probe.registry_with_hasty (body req) req Sample.fresh
    = ["subdomain"; "domain"; "adminPassword"]
  ∧ config (snd out) = config Sample.fresh
  ∧ setupCompleted (snd out) = false.
Proof.
  cbv zeta.
  set (req := Sample.configure_with "5f2c9a" Sample.numeric_password).
  pose (subdomain := mkStep "subdomain" "Subdomain Configuration"
          "Configure how subdomains work in your Puter instance"
          true 10 SubdomainStepTemplate subdomain_process).
  pose (domain := mkStep "domain" "Domain Configuration"
          "Set up the domain name for your Puter instance"
          true 20 DomainStepTemplate domain_process).
  pose (adminPassword := mkStep "adminPassword" "Admin Password"
          "Set the password for the admin user"
          true 30 PasswordStepTemplate
          (adminPassword_process (H:=Sample.sample_bcrypt))).
  pose (hasty := mkStep "hasty" "Hasty" EmptyString true 40
          (CustomTemplate "<p></p>") Probe.hasty_process).
  assert (calls (body req) req [subdomain; domain] Sample.fresh
            [ {[ "experimental_no_subdomain" := VBool false ]};
              {[ "domain" := VUndef ]} ] Sample.fresh) as Hcalls.
  { repeat (eapply calls_cons; [reflexivity|]). apply calls_nil. }
  assert (step_process adminPassword (body req) req Sample.fresh
          = (Throw "data.adminPassword.trim is not a function", Sample.fresh))
    as Hstep by reflexivity.
  destruct (failing_step_aborts_setup [subdomain; domain] [hasty] adminPassword
              req Sample.fresh Sample.fresh Sample.fresh _ _ Hcalls Hstep)
    as (_ & Hran & Hanswer & Hkept).
  change ([subdomain; domain] ++ adminPassword :: [hasty])
    with Probe.registry_with_hasty in Hran, Hanswer.
  destruct Hkept as (Hconfig & _ & Hflag & _).
  { apply (default_steps_keep_setup (H:=Sample.sample_bcrypt)). }
  rewrite Hanswer. split; [reflexivity|]. split; [exact Hran|].
  split; reflexivity.
Defined.

(** C5, as stated, fails: a step is called with the service as [this], so
    it can commit before it throws.  Here a step behind the stock steps
    updates the configuration and marks the setup as completed, then
    throws: the submission is answered with the failure, and yet the
    configuration is changed and the setup is completed, in memory and on
    disk. *)
Lemma failing_step_can_commit :
  let req := Sample.configure_with "5f2c9a" Sample.form in
  let out := configure_handler Probe.registry_with_hasty req Sample.fresh in
  registerConfigStep Probe.hasty Sample.registry = Ok Probe.registry_with_hasty
  ∧ fst (processConfigSteps Probe.registry_with_hasty (body req) req Sample.fresh)
    = Throw "step failed"
  ∧ fst out = Ok (Json 500 (failure_payload "Failed to complete setup" "step failed"))
  ∧ setupCompleted Sample.fresh = false
  ∧ setupCompleted (snd out) = true
  ∧ fst (isSetupCompleted Sample.fresh) = Ok false
  ∧ fst (isSetupCompleted (snd out)) = Ok true
  ∧ config Sample.fresh !! "domain" = Some (VStr "puter.localhost")
  ∧ config (snd out) !! "domain" = Some (VStr "early.example")
  ∧ files Sample.fresh !! wizard_config_path = None
  ∧ files (snd out) !! wizard_config_path
    = Some (JsonDoc {[ "domain" := VStr "early.example" ]}).
Proof.
  cbv zeta. split; [reflexivity|]. repeat split; by vm_compute.
Qed.

(** ** Reset *)

(** The three ways through the reset handler. *)
Lemma reset_handler_eq req s :
  reset_handler req s =
    match files s !! setup_completed_path with
    | None => (Ok (Json 200 (reset_payload s)), set_setupCompleted false s)
    | Some _ =>
        if decide (setup_completed_path ∈ faulty s)
        then (Ok (Json 500 (failure_payload "Failed to reset configuration"
                              ("EACCES: unlink " +:+ setup_completed_path))), s)
        else (Ok (Json 200 (reset_payload s)),
              set_setupCompleted false
                (set_files (delete setup_completed_path (files s)) s))
    end.
Proof.
  unfold reset_handler, try_catch, mbind, M_bind, fs_existsSync, gets, fs_unlinkSync.
  change (path_join config_dir "setup-completed") with setup_completed_path.
  destruct (files s !! setup_completed_path) as [c|] eqn:Hmarker; simpl.
  - rewrite Hmarker. by case_decide.
  - done.
Qed.

(** C8.  Reset is idempotent.  With no completion marker on disk the reset
    succeeds.  After a reset that succeeded, [isSetupCompleted] answers
    [false] (and the flag in memory is unset), and a second reset succeeds
    as well and changes nothing. *)
Theorem reset_is_idempotent (req again : Request) (s s1 : State)
    (r1 : Result Response) :
  reset_handler req s = (r1, s1) →
  (files s !! setup_completed_path = None → succeeded r1 = true)
  ∧ (succeeded r1 = true →
       isSetupCompleted s1 = (Ok false, s1)
       ∧ setupCompleted s1 = false
       ∧ succeeded (fst (reset_handler again s1)) = true
       ∧ snd (reset_handler again s1) = s1).
Proof.
  rewrite reset_handler_eq. intros Hreset. split.
  - intros Hnone. rewrite Hnone in Hreset. by injection Hreset as <- <-.
  - intros Hok.
    assert (files s1 !! setup_completed_path = None ∧ setupCompleted s1 = false)
      as [Hgone Hflag].
    { destruct (files s !! setup_completed_path) as [c|] eqn:Hmarker.
      - case_decide; injection Hreset as <- <-; [done|].
        split; [apply lookup_delete_eq|done].
      - by injection Hreset as <- <-. }
    rewrite isSetupCompleted_eq, reset_handler_eq, Hgone. simpl.
    repeat split; try done.
    destruct s1; simpl in *. by rewrite Hflag.
Qed.

Lemma reset_is_idempotent_witness :
  succeeded (fst (reset_handler (Sample.reset_with "5f2c9a") Sample.completed)) = true
  ∧ succeeded (fst (reset_handler (Sample.reset_with "5f2c9a")
                      (snd (reset_handler (Sample.reset_with "5f2c9a")
                              Sample.completed)))) = true.
Proof.
  split; [reflexivity|].
  apply (reset_is_idempotent (Sample.reset_with "5f2c9a")
           (Sample.reset_with "5f2c9a") Sample.completed _ _ eq_refl).
  reflexivity.
Defined.

(** ** The admin credential *)

Section PasswordLog.
Context `{Bcrypt}.

(** What [updateAdminPassword] does when it returns: the row of the admin
    is rewritten with the fresh hash, the hash verifies, and the log line
    is written unless the disk refuses it. *)
Lemma updateAdminPassword_ok password s s' :
  updateAdminPassword password s = (Ok tt, s') →
  ∃ admin,
    List.find (λ u, String.eqb (user_name u) "admin") (users s) = Some admin
    ∧ users s' = set_password (user_id admin)
                   (bcrypt_hash password (nextSalt s)) (users s)
    ∧ (∃ updated,
         List.find (λ u, String.eqb (user_name u) "admin") (users s')
         = Some updated
         ∧ bcrypt_compare password (user_password updated) = true)
    ∧ files s' =
        if decide (password_log_path ∈ faulty s) then files s
        else <[password_log_path :=
                 Text (password_log_line password (clock s))]> (files s).
Proof.
  unfold updateAdminPassword.
  destruct (_ || _); [done|].
  unfold mbind, M_bind, get_user, gets, findDatabaseService, throw, try_catch.
  destruct (List.find _ (users s)) as [admin|] eqn:Hadmin; [|done].
  destruct (first_service _ _) as [db|]; [|done].
  intros Hrun. exists admin. split; [done|].
  destruct (has_knex db) eqn:Hknex; [|destruct (has_query db) eqn:Hquery; [|done]].
  all: unfold db_update in Hrun; destruct (db_fails db); [done|];
    simpl in Hrun;
    destruct (List.find _ (set_password _ _ _)) as [updated|] eqn:Hupdated;
      [|done];
    destruct (bcrypt_compare password (user_password updated)) eqn:Hmatch;
      [|done];
    unfold fs_writeFile in Hrun; simpl in Hrun;
    change (path_join config_dir "admin-password-log.txt")
      with password_log_path in Hrun;
    case_decide; injection Hrun as <-; simpl;
    (split; [done|]); (split; [by exists updated|]); done.
Qed.

(** Whether the disk accepts writes has no bearing on the outcome of the
    update nor on the user table; a refused log write leaves the files as
    they were. *)
Lemma updateAdminPassword_any_disk password disk s :
  fst (updateAdminPassword password (set_faulty disk s))
  = fst (updateAdminPassword password s)
  ∧ users (snd (updateAdminPassword password (set_faulty disk s)))
    = users (snd (updateAdminPassword password s))
  ∧ (password_log_path ∈ disk →
     files (snd (updateAdminPassword password (set_faulty disk s))) = files s).
Proof.
  unfold updateAdminPassword.
  destruct (_ || _); [done|].
  unfold mbind, M_bind, get_user, gets, findDatabaseService, throw, try_catch.
  change (users (set_faulty disk s)) with (users s).
  change (services (set_faulty disk s)) with (services s).
  destruct (List.find _ (users s)) as [admin|]; [|done].
  destruct (first_service _ _) as [db|]; [|done].
  destruct (has_knex db); [|destruct (has_query db); [|done]].
  all: unfold db_update; destruct (db_fails db); [done|]; simpl;
    destruct (List.find _ (set_password _ _ _)) as [updated|]; [|done];
    destruct (bcrypt_compare password (user_password updated)); [|done];
    unfold fs_writeFile; simpl;
    change (path_join config_dir "admin-password-log.txt")
      with password_log_path;
    repeat case_decide; done.
Qed.
End PasswordLog.

(** C9.  Whenever [updateAdminPassword] returns, which it does only after
    the update was verified, the password itself (not its hash) has been
    written, with the time, to [config/admin-password-log.txt] if the disk
    takes the write.  The write is best effort: whatever the disk refuses,
    the log path included, the update returns all the same with the same
    user table, and a refused write leaves the files as they were. *)
Theorem password_is_logged_in_plaintext `{Bcrypt}
    (password : string) (s s' : State) :
  updateAdminPassword password s = (Ok tt, s') →
  (∃ updated,
     List.find (λ u, String.eqb (user_name u) "admin") (users s') = Some updated
     ∧ bcrypt_compare password (user_password updated) = true)
  ∧ (password_log_path ∉ faulty s →
     files s' !! "config/admin-password-log.txt"
     = Some (Text ("Admin password was set to: " +:+ password
                   +:+ " at " +:+ clock s)))
  ∧ (∀ disk : gset string,
       ∃ s'', updateAdminPassword password (set_faulty disk s) = (Ok tt, s'')
              ∧ users s'' = users s'
              ∧ (password_log_path ∈ disk → files s'' = files s)).
Proof.
  intros Hrun.
  pose proof (updateAdminPassword_ok _ _ _ Hrun)
    as (admin & _ & _ & Hverified & Hfiles).
  split; [done|]. split.
  - intros Hdisk. rewrite Hfiles, decide_False by done.
    apply (lookup_insert_eq (files s)).
  - intros disk.
    destruct (updateAdminPassword_any_disk password disk s) as (Hout & Husers & Hlog).
    rewrite Hrun in Hout, Husers. simpl in Hout, Husers.
    destruct (updateAdminPassword password (set_faulty disk s)) as [out s''].
    simpl in *. subst out. by exists s''.
Qed.

Lemma password_is_logged_in_plaintext_witness :
  files (snd (updateAdminPassword (H:=Sample.sample_bcrypt) "secretpw" Sample.fresh))
    !! "config/admin-password-log.txt"
  = Some (Text "Admin password was set to: secretpw at 2024-05-01T10:00:00.000Z").
Proof.
  destruct (password_is_logged_in_plaintext (H:=Sample.sample_bcrypt) "secretpw"
              Sample.fresh _ eq_refl) as (_ & Hlog & _).
  apply Hlog. by vm_compute.
Defined.

(** ** The token gate and the write routes *)

(** No endpoint guards [POST /__setup/configure]: the request reaches the
    handler whatever token it carries. *)
Lemma configure_route_is_ungated configSteps atRoot req :
  path req = "/__setup/configure" → method req = "POST" →
  dispatch configSteps atRoot req = configure_handler configSteps req.
Proof.
  intros Hpath Hmethod. unfold dispatch, endpoints, matches.
  destruct atRoot; simpl; rewrite Hpath, Hmethod; reflexivity.
Qed.

(** [POST /__setup/reset], the sibling write route, is behind the gate. *)
Lemma reset_route_is_gated configSteps atRoot req :
  path req = "/__setup/reset" → method req = "POST" →
  dispatch configSteps atRoot req
  = serve_endpoint
      (mkEndpoint "/__setup/reset" ["POST"] [verifySetupToken] reset_handler) req.
Proof.
  intros Hpath Hmethod. unfold dispatch, endpoints, matches.
  destruct atRoot; simpl; rewrite Hpath, Hmethod; reflexivity.
Qed.

#[global] Instance token_kept_preorder : PreOrder token_kept.
Proof. split; unfold token_kept; [done|]. intros s1 s2 s3. congruence. Qed.

Section TokenKept.
#[local] Abbreviation kept := (preserves token_kept).

Lemma kept_fs_mkdir p : kept (fs_mkdir p).
Proof. intros s out s'. unfold fs_mkdir. by case_decide; intros [= _ <-]. Qed.

Lemma kept_fs_writeFile p data : kept (fs_writeFile p data).
Proof.
  intros s out s'. unfold fs_writeFile.
  destruct data; try by intros [= _ <-].
  by case_decide; intros [= _ <-].
Qed.

Lemma kept_fs_writeJson p o : kept (fs_writeJson p o).
Proof. intros s out s'. unfold fs_writeJson. by case_decide; intros [= _ <-]. Qed.

Lemma kept_fs_unlinkSync p : kept (fs_unlinkSync p).
Proof.
  intros s out s'. unfold fs_unlinkSync.
  case_decide; [by intros [= _ <-]|].
  by destruct (files s !! p); intros [= _ <-].
Qed.

Lemma kept_updateConfig newConfig : kept (updateConfig newConfig).
Proof.
  unfold updateConfig.
  apply (preserves_bind token_kept); [by intros s out s' [= _ <-]|]. intros _.
  apply (preserves_bind token_kept).
  { apply (preserves_try_catch token_kept); [apply kept_fs_mkdir|].
    intros e. apply (preserves_ret token_kept). }
  intros _. apply (preserves_bind token_kept); [apply kept_fs_writeJson|].
  intros _. apply (preserves_ret token_kept).
Qed.

Lemma kept_markSetupCompleted adminPassword :
  kept (markSetupCompleted adminPassword).
Proof.
  unfold markSetupCompleted.
  apply (preserves_bind token_kept).
  { apply (preserves_try_catch token_kept); [apply kept_fs_mkdir|].
    intros e. apply (preserves_ret token_kept). }
  intros _. apply (preserves_bind token_kept); [apply (preserves_gets token_kept)|].
  intros timestamp. apply (preserves_bind token_kept); [apply kept_fs_writeFile|].
  intros _. apply (preserves_bind token_kept).
  { destruct (truthy adminPassword);
      [apply kept_fs_writeFile|apply (preserves_ret token_kept)]. }
  intros _. apply (preserves_bind token_kept); [by intros s out s' [= _ <-]|].
  intros _. apply (preserves_ret token_kept).
Qed.

(** Removing the token removes the file only. *)
Lemma kept_remove_setup_token : kept remove_setup_token.
Proof.
  unfold remove_setup_token.
  apply (preserves_bind token_kept); [apply (preserves_gets token_kept)|].
  intros token. destruct (truthy _); [|apply (preserves_ret token_kept)].
  apply (preserves_try_catch token_kept); [|intros e; apply (preserves_ret token_kept)].
  apply (preserves_bind token_kept); [apply (preserves_gets token_kept)|].
  intros [p|]; [apply kept_fs_unlinkSync|apply (preserves_throw token_kept)].
Qed.

Lemma kept_processConfigSteps configSteps data req :
  Forall (λ step, keeps_setup (step_process step)) configSteps →
  kept (processConfigSteps configSteps data req).
Proof.
  intros Hsteps s out s' Hrun.
  assert (untouched s s') as (_ & _ & Htoken & _); [|done].
  unfold processConfigSteps in Hrun.
  destruct (snd (processLoop _ _ _ _ _ _)) as [[[c a]|e] s1] eqn:Hloop;
    injection Hrun as _ <-; by eapply processLoop_untouched.
Qed.

(** A submission, successful or not, leaves the token in memory as it
    was. *)
Lemma kept_configure_handler configSteps req :
  Forall (λ step, keeps_setup (step_process step)) configSteps →
  kept (configure_handler configSteps req).
Proof.
  intros Hsteps. unfold configure_handler.
  apply (preserves_try_catch token_kept); [|intros e; apply (preserves_ret token_kept)].
  apply (preserves_bind token_kept); [by apply kept_processConfigSteps|].
  intros config. apply (preserves_bind token_kept).
  { apply (preserves_try_catch token_kept); [|intros e; apply (preserves_ret token_kept)].
    apply (preserves_bind token_kept); [apply kept_updateConfig|].
    intros _. apply (preserves_ret token_kept). }
  intros [response|]; [apply (preserves_ret token_kept)|].
  apply (preserves_bind token_kept).
  { apply (preserves_try_catch token_kept); [|intros e; apply (preserves_ret token_kept)].
    apply (preserves_bind token_kept); [apply kept_markSetupCompleted|].
    intros _. apply (preserves_ret token_kept). }
  intros [response|]; [apply (preserves_ret token_kept)|].
  apply (preserves_bind token_kept); [apply kept_remove_setup_token|].
  intros _. apply (preserves_ret token_kept).
Qed.
End TokenKept.

(** After any submission the gate lets through every write request that
    carries the token it let through before. *)
Lemma gate_after_configure configSteps req s out s' later :
  Forall (λ step, keeps_setup (step_process step)) configSteps →
  configure_handler configSteps req s = (out, s') →
  method later ≠ "GET" →
  verifySetupToken later s' = verifySetupToken later s.
Proof.
  intros Hsteps Hrun Hmethod.
  apply kept_configure_handler in Hrun; [|done].
  unfold verifySetupToken. rewrite Hrun.
  apply String.eqb_neq in Hmethod. by rewrite Hmethod, !andb_false_r.
Qed.

(** C1.  The code at a submission with a wrong token.  The gate, asked,
    would redirect to the token page, and the reset route does so for the
    same token; the configure route has no gate, so the submission runs all
    three steps, is answered with success and completes the setup. *)
Theorem configure_accepts_a_wrong_token :
  let req := Sample.configure_with "not-the-token" Sample.form in
  let out := dispatch Sample.registry true req Sample.fresh in
  setupToken Sample.fresh = Some "5f2c9a"
  ∧ verifySetupToken req Sample.fresh = RedirectTo "/__setup/token"
  ∧ fst (dispatch Sample.registry true (Sample.reset_with "not-the-token")
           Sample.fresh)
    = Ok (Redirect "/__setup/token")
  ∧ succeeded (fst out) = true
  ∧ stepsRun Sample.registry (body req) req Sample.fresh
    = ["subdomain"; "domain"; "adminPassword"]
  ∧ setupCompleted Sample.fresh = false
  ∧ setupCompleted (snd out) = true
  ∧ is_Some (files (snd out) !! setup_completed_path).
Proof.
  cbv zeta. repeat split; try by vm_compute.
  by vm_compute; eexists.
Qed.

(** ** The admin credential and the delta *)

(** The loop captures the submitted password as soon as a step named
    [adminPassword] has run. *)
Lemma processLoop_captures steps data req config adminPassword s config' captured s' :
  truthy (prop data "adminPassword") = true →
  snd (processLoop steps data req config adminPassword s)
  = (Ok (config', captured), s') →
  captured = if bool_decide ("adminPassword" ∈ map step_id steps)
             then prop data "adminPassword" else adminPassword.
Proof.
  intros Htruthy. revert config adminPassword s.
  induction steps as [|step rest IH]; intros config adminPassword s; simpl.
  - by intros [= _ <- _].
  - destruct (step_process step data req s) as [[stepConfig|e] s1]; [|done].
    match goal with |- context [processLoop rest data req ?c ?a ?t] =>
      specialize (IH c a t); destruct (processLoop rest data req c a t) as [ran out]
    end.
    simpl in *. intros Hout. rewrite (IH Hout), Htruthy, andb_true_r.
    destruct (String.eqb_spec (step_id step) "adminPassword") as [Hid|Hid].
    + rewrite Hid, (bool_decide_eq_true_2 (_ ∈ _ :: _)) by left.
      by case_bool_decide.
    + destruct (decide ("adminPassword" ∈ map step_id rest)) as [Hin|Hin].
      * rewrite !bool_decide_eq_true_2; [done|by right|done].
      * rewrite !bool_decide_eq_false_2; [done| |done].
        rewrite elem_of_cons. intros [Heq|?]; [by apply Hid|done].
Qed.

(** Whatever the registry, once it holds a step named [adminPassword], a
    submitted password is a key of the object that [processConfigSteps]
    returns, which is the object handed to [updateConfig]. *)
Lemma admin_password_is_a_delta_key configSteps data req s config s' :
  "adminPassword" ∈ map step_id configSteps →
  truthy (prop data "adminPassword") = true →
  processConfigSteps configSteps data req s = (Ok config, s') →
  config !! "__adminPassword" = Some (prop data "adminPassword").
Proof.
  intros Hin Htruthy. unfold processConfigSteps.
  destruct (snd (processLoop _ _ _ _ _ _)) as [[[c a]|e] s1] eqn:Hloop; [|done].
  apply processLoop_captures in Hloop; [|done].
  rewrite bool_decide_eq_true_2 in Hloop by done. subst a.
  rewrite Htruthy. intros [= <- _]. apply lookup_insert_eq.
Qed.

(** [updateConfig] commits every key it is given to the live
    configuration, even when the record of it cannot be written. *)
Lemma updateConfig_commits_every_key newConfig k v s :
  newConfig !! k = Some v → config (snd (updateConfig newConfig s)) !! k = Some v.
Proof.
  intros Hk. unfold updateConfig, mbind, M_bind, modify, try_catch, fs_mkdir,
    fs_writeJson. simpl.
  repeat (case_decide; simpl); by apply lookup_union_Some_l.
Qed.

(** C2.  The code at a submission of the wizard form.  The
    object returned by the pipeline, which is what the commit step is
    given, has the admin password under the key [__adminPassword]; after
    the submission the password is in the live configuration object and in
    [config/wizard-config.json]. *)
Theorem admin_password_is_committed_with_the_delta :
  let req := Sample.configure_with "5f2c9a" Sample.form in
  let delta : Obj :=
    {[ "experimental_no_subdomain" := VBool true;
       "domain" := VStr "example.com";
       "__adminPassword" := VStr "secretpw" ]} in
  let s' := snd (dispatch Sample.registry true req Sample.fresh) in
  fst (processConfigSteps Sample.registry (body req) req Sample.fresh) = Ok delta
  ∧ succeeded (fst (dispatch Sample.registry true req Sample.fresh)) = true
  ∧ config s' !! "__adminPassword" = Some (VStr "secretpw")
  ∧ files s' !! "config/wizard-config.json" = Some (JsonDoc delta).
Proof.
  cbv zeta. repeat split; by vm_compute.
Qed.

(** C3.  The code after a successful submission.  The token file is gone,
    but the token the gate compares with is the one read when the routes
    were installed, and it is still there: a reset request carrying the old
    token passes the gate and is carried out. *)
Theorem old_token_passes_the_gate_after_setup :
  let req := Sample.configure_with "5f2c9a" Sample.form in
  let out := dispatch Sample.registry true req Sample.fresh in
  let later := Sample.reset_with "5f2c9a" in
  succeeded (fst out) = true
  ∧ setupCompleted (snd out) = true
  ∧ files (snd out) !! setup_token_path = None
  ∧ setupToken (snd out) = Some "5f2c9a"
  ∧ verifySetupToken later (snd out) = Next
  ∧ succeeded (fst (dispatch Sample.registry true later (snd out))) = true
  ∧ setupCompleted (snd (dispatch Sample.registry true later (snd out))) = false.
Proof.
  cbv zeta. repeat split; by vm_compute.
Qed.


(** * Further properties of the code *)

(** ** The gate, request by request *)

(** X1.  Outside the two pages that are always open, a request that is not
    a GET passes the gate exactly when the instance has a token and the
    request carries that very token, as a non-empty string, in its query or
    else in its body.  With no token in memory nothing passes; a number or
    a boolean never passes. *)
Theorem write_request_passes_iff_it_carries_the_token (req : Request) (s : State) :
  path req ≠ "/__setup/token" →
  path req ≠ "/__setup/reset-instructions" →
  method req ≠ "GET" →
  verifySetupToken req s = Next
  ↔ ∃ t, t ≠ EmptyString
         ∧ setupToken s = Some t
         ∧ js_or (prop (query req) "token") (prop (body req) "token") = VStr t.
Proof.
  intros Hp1 Hp2 Hm. unfold verifySetupToken.
  apply String.eqb_neq in Hp1, Hp2, Hm. rewrite Hp1, Hp2, Hm, !andb_false_r.
  set (token := js_or _ _).
  split.
  - destruct (truthy token) eqn:Htruthy; [|done]. simpl.
    unfold strict_eq. case_bool_decide as Heq; [|done]. intros _.
    destruct (setupToken s) as [t|]; simpl in Heq.
    + exists t. split; [|done]. intros ->. by rewrite Heq in Htruthy.
    + by rewrite Heq in Htruthy.
  - intros (t & Ht & Htoken & ->). rewrite Htoken. simpl.
    unfold strict_eq. rewrite bool_decide_eq_true_2 by done.
    destruct (String.eqb_spec t EmptyString); done.
Qed.

Lemma write_request_passes_iff_it_carries_the_token_witness :
  verifySetupToken (Sample.reset_with "5f2c9a") Sample.fresh = Next.
Proof.
  apply (write_request_passes_iff_it_carries_the_token
           (Sample.reset_with "5f2c9a") Sample.fresh); try done.
  exists "5f2c9a". by repeat split.
Defined.

(** X2.  The token of the query shadows the token of the body: a request
    whose query carries a non-empty value that is not the token is
    redirected to the token page, whatever its body carries, the right
    token included. *)
Theorem query_token_shadows_body_token (req : Request) (s : State) :
  path req ≠ "/__setup/token" →
  path req ≠ "/__setup/reset-instructions" →
  method req ≠ "GET" →
  truthy (prop (query req) "token") = true →
  prop (query req) "token" ≠ token_value (setupToken s) →
  verifySetupToken req s = RedirectTo "/__setup/token".
Proof.
  intros Hp1 Hp2 Hm Htruthy Hne. unfold verifySetupToken.
  apply String.eqb_neq in Hp1, Hp2, Hm. rewrite Hp1, Hp2, Hm, !andb_false_r.
  assert (js_or (prop (query req) "token") (prop (body req) "token")
          = prop (query req) "token") as -> by (unfold js_or; by rewrite Htruthy).
  rewrite Htruthy. unfold strict_eq.
  by rewrite bool_decide_eq_false_2 by done.
Qed.

Lemma query_token_shadows_body_token_witness :
  verifySetupToken
    (mkReq "/__setup/reset" "POST" {[ "token" := VStr "stale" ]}
       {[ "token" := VStr "5f2c9a" ]} None) Sample.fresh
  = RedirectTo "/__setup/token".
Proof.
  apply query_token_shadows_body_token; try done.
Defined.

(** X3.  A reset request that the gate refuses is answered with a redirect
    to the token page and changes nothing: the handler does not run. *)
Theorem denied_reset_changes_nothing
    (configSteps : list ConfigStep) (atRoot : bool) (req : Request) (s : State) :
  path req = "/__setup/reset" → method req = "POST" →
  verifySetupToken req s ≠ Next →
  dispatch configSteps atRoot req s = (Ok (Redirect "/__setup/token"), s).
Proof.
  intros Hpath Hmethod Hgate.
  rewrite reset_route_is_gated by done.
  unfold serve_endpoint. simpl.
  destruct (verifySetupToken req s) as [|url] eqn:Hverdict; [done|].
  revert Hverdict. unfold verifySetupToken. rewrite Hpath, Hmethod. simpl.
  destruct (_ || _); [|done]. by intros [= <-].
Qed.

Lemma denied_reset_changes_nothing_witness :
  dispatch Sample.registry true (Sample.reset_with "guess") Sample.completed
  = (Ok (Redirect "/__setup/token"), Sample.completed).
Proof.
  apply denied_reset_changes_nothing; done.
Defined.

(** X4.  While the wizard is installed at the root, a request for any path
    that is neither [/] nor under [/__setup], [/api/] or [/assets/] is
    redirected to [/?token=] followed by the setup token itself, whatever
    the request carries; the state is unchanged. *)
Theorem stray_request_is_redirected_with_the_token
    (configSteps : list ConfigStep) (req : Request) (s : State) (t : string) :
  path req ≠ "/" →
  String.prefix "/__setup" (path req) = false →
  String.prefix "/api/" (path req) = false →
  String.prefix "/assets/" (path req) = false →
  setupToken s = Some t → t ≠ EmptyString →
  dispatch configSteps true req s = (Ok (Redirect ("/?token=" +:+ t)), s).
Proof.
  intros Hroot Hsetup Hapi Hassets Htoken Ht.
  assert (∀ r, String.prefix "/__setup" r = true ∨ String.prefix "/api/" r = true
               ∨ r = "/" → String.eqb r (path req) = false) as Hroute.
  { intros r Hr. apply String.eqb_neq. intros ->.
    destruct Hr as [Hr|[Hr|Hr]]; congruence. }
  unfold dispatch.
  assert (List.find (matches req) (endpoints configSteps true) = None) as ->.
  { unfold endpoints, matches. cbn [app List.find route].
    repeat (rewrite Hroute by (vm_compute; tauto); cbn [andb]). done. }
  unfold fallback. apply String.eqb_neq in Hroot.
  rewrite Hroot, Hsetup, Hapi, Hassets, Htoken. simpl.
  by destruct (String.eqb_spec t EmptyString).
Qed.

Lemma stray_request_is_redirected_with_the_token_witness :
  dispatch Sample.registry true
    (mkReq "/dashboard" "GET" ∅ ∅ (Some "198.51.100.4")) Sample.fresh
  = (Ok (Redirect "/?token=5f2c9a"), Sample.fresh).
Proof.
  apply (stray_request_is_redirected_with_the_token Sample.registry
           (mkReq "/dashboard" "GET" ∅ ∅ (Some "198.51.100.4")) Sample.fresh
           "5f2c9a"); done.
Defined.

(** ** The completion marker, outcome by outcome *)

Lemma markSetupCompleted_eq adminPassword s :
  markSetupCompleted adminPassword s =
    if decide (setup_completed_path ∈ faulty s)
    then (Throw ("EACCES: open " +:+ setup_completed_path), s)
    else
      let s1 := set_files (<[setup_completed_path := Text (clock s)]> (files s)) s in
      if truthy adminPassword
      then match adminPassword with
           | VStr d =>
               if decide (admin_password_path ∈ faulty s)
               then (Throw ("EACCES: open " +:+ admin_password_path), s1)
               else (Ok true,
                     set_setupCompleted true
                       (set_files (<[admin_password_path := Text d]> (files s1)) s1))
           | _ => (Throw "ERR_INVALID_ARG_TYPE", s1)
           end
      else (Ok true, set_setupCompleted true s1).
Proof.
  unfold markSetupCompleted, mbind, M_bind, try_catch, fs_mkdir, gets, modify,
    fs_writeFile.
  change (path_join config_dir "setup-completed") with setup_completed_path.
  change (path_join config_dir "admin-password") with admin_password_path.
  destruct (decide (config_dir ∈ faulty s)); simpl;
    (destruct (decide (setup_completed_path ∈ faulty s)); [done|]);
    (destruct (truthy adminPassword); [|done]);
    destruct adminPassword; try done; simpl;
    by destruct (decide (admin_password_path ∈ faulty s)).
Qed.

Lemma markSetupCompleted_frame adminPassword s out s' :
  markSetupCompleted adminPassword s = (out, s') →
  tokenPath s' = tokenPath s ∧ faulty s' = faulty s
  ∧ setupToken s' = setupToken s ∧ config s' = config s
  ∧ ∀ p, p ≠ setup_completed_path → p ≠ admin_password_path →
         files s' !! p = files s !! p.
Proof.
  rewrite markSetupCompleted_eq. cbv zeta.
  repeat (case_decide || case_match); intros [= _ <-]; simpl;
    repeat split; try done; intros p Hp1 Hp2; by rewrite ?lookup_insert_ne.
Qed.

Lemma markSetupCompleted_outcome adminPassword s out s' :
  markSetupCompleted adminPassword s = (out, s') →
  match out with
  | Ok _ =>
      setupCompleted s' = true
      ∧ is_Some (files s' !! setup_completed_path)
      ∧ files s' !! admin_password_path
        = (if truthy adminPassword then Some (Text (js_to_string adminPassword))
           else files s !! admin_password_path)
  | Throw _ => setupCompleted s' = setupCompleted s
  end.
Proof.
  rewrite markSetupCompleted_eq. cbv zeta.
  assert (admin_password_path ≠ setup_completed_path) as Hne by done.
  case_decide; [by intros [= <- <-]|].
  destruct (truthy adminPassword) eqn:Htruthy.
  - destruct adminPassword as [| | | |d]; try by intros [= <- <-].
    case_decide; intros [= <- <-]; [done|]. simpl.
    rewrite lookup_insert_ne, !lookup_insert_eq by done. by repeat split.
  - intros [= <- <-]. simpl.
    rewrite lookup_insert_eq, lookup_insert_ne by done. by repeat split.
Qed.

(** X5.  When [markSetupCompleted] returns, [isSetupCompleted] answers
    [true] from then on and the flag in memory is set; the marker holds the
    time of the call; the sidecar file holds the password when one was
    passed and is left alone otherwise; no other file, nor the
    configuration, the token or the user table, is touched. *)
Theorem marking_completed_is_seen_by_isSetupCompleted
    (adminPassword : JSVal) (s s' : State) (b : bool) :
  markSetupCompleted adminPassword s = (Ok b, s') →
  b = true
  ∧ isSetupCompleted s' = (Ok true, s')
  ∧ setupCompleted s' = true
  ∧ files s' !! setup_completed_path = Some (Text (clock s))
  ∧ files s' !! admin_password_path
    = (if truthy adminPassword then Some (Text (js_to_string adminPassword))
       else files s !! admin_password_path)
  ∧ (∀ p, p ≠ setup_completed_path → p ≠ admin_password_path →
          files s' !! p = files s !! p)
  ∧ config s' = config s ∧ setupToken s' = setupToken s ∧ users s' = users s.
Proof.
  rewrite markSetupCompleted_eq, isSetupCompleted_eq.
  assert (admin_password_path ≠ setup_completed_path) as Hne by done.
  case_decide; [done|]. cbv zeta.
  destruct (truthy adminPassword) eqn:Htruthy.
  - destruct adminPassword as [| | | |d]; try done.
    case_decide; [done|]. intros [= <- <-]. simpl.
    rewrite lookup_insert_ne, !lookup_insert_eq by done.
    repeat split; try done.
    intros p Hp1 Hp2. by rewrite !lookup_insert_ne.
  - intros [= <- <-]. simpl.
    rewrite lookup_insert_eq, lookup_insert_ne by done.
    repeat split; try done.
    intros p Hp1 Hp2. by rewrite !lookup_insert_ne.
Qed.

Lemma marking_completed_is_seen_by_isSetupCompleted_witness :
  fst (isSetupCompleted (snd (markSetupCompleted (VStr "secretpw") Sample.fresh)))
  = Ok true.
Proof.
  destruct (marking_completed_is_seen_by_isSetupCompleted (VStr "secretpw")
              Sample.fresh
              (snd (markSetupCompleted (VStr "secretpw") Sample.fresh)) true
              eq_refl) as (_ & Hseen & _).
  by rewrite Hseen.
Defined.

(** X6.  When [markSetupCompleted] throws, the flag in memory, the
    configuration and the token are as before.  If the marker itself could
    not be written, nothing changed.  Otherwise it is the sidecar password
    that failed, after the marker was written: the disk then says
    completed ([isSetupCompleted] answers [true]) while the flag in memory
    does not. *)
Theorem failed_marking_keeps_the_flag (adminPassword : JSVal) (s s' : State)
    (e : string) :
  markSetupCompleted adminPassword s = (Throw e, s') →
  setupCompleted s' = setupCompleted s
  ∧ config s' = config s ∧ setupToken s' = setupToken s
  ∧ (setup_completed_path ∈ faulty s → s' = s)
  ∧ (setup_completed_path ∉ faulty s →
       truthy adminPassword = true
       ∧ isSetupCompleted s' = (Ok true, s')
       ∧ files s' !! admin_password_path = files s !! admin_password_path).
Proof.
  rewrite markSetupCompleted_eq, isSetupCompleted_eq.
  assert (admin_password_path ≠ setup_completed_path) as Hne by done.
  case_decide as Hmarker.
  - intros [= <- <-]. by repeat split.
  - cbv zeta. destruct (truthy adminPassword) eqn:Htruthy; [|done].
    assert (∀ s1, s1 = set_files (<[setup_completed_path := Text (clock s)]> (files s)) s →
      setupCompleted s1 = setupCompleted s ∧ config s1 = config s
      ∧ setupToken s1 = setupToken s
      ∧ (setup_completed_path ∈ faulty s → s1 = s)
      ∧ (setup_completed_path ∉ faulty s →
           true = true
           ∧ (Ok (bool_decide (is_Some (files s1 !! setup_completed_path))), s1)
             = (Ok true, s1)
           ∧ files s1 !! admin_password_path = files s !! admin_password_path))
      as Hs1.
    { intros s1 ->. simpl. rewrite lookup_insert_eq, lookup_insert_ne by done.
      by repeat split. }
    destruct adminPassword as [| | | |d]; try done;
      try (intros [= <- <-]; by apply Hs1).
    case_decide; [|done]. intros [= <- <-]. by apply Hs1.
Qed.

Lemma failed_marking_keeps_the_flag_witness :
  let s' := snd (markSetupCompleted (VStr "secretpw")
                   (Cases.refusing admin_password_path)) in
  setupCompleted s' = false ∧ fst (isSetupCompleted s') = Ok true.
Proof.
  cbv zeta.
  assert (markSetupCompleted (VStr "secretpw") (Cases.refusing admin_password_path)
          = (Throw ("EACCES: open " +:+ admin_password_path),
             snd (markSetupCompleted (VStr "secretpw")
                    (Cases.refusing admin_password_path))))
    as Hrun by (vm_compute; reflexivity).
  destruct (failed_marking_keeps_the_flag _ _ _ _ Hrun)
    as (Hflag & _ & _ & _ & Hdisk).
  split; [by rewrite Hflag|].
  destruct Hdisk as (_ & Hseen & _); [by vm_compute|]. by rewrite Hseen.
Defined.

(** ** Reset, outcome by outcome *)

(** X7.  The reset handler touches the marker and the flag only: the
    configuration, the token in memory, the user table and every other
    file (the token file included) are as before.  An answer of success
    carries the current token; an answer of failure means that the marker
    was there and could not be removed, and then nothing changed. *)
Theorem reset_touches_only_the_marker (req : Request) (s : State) :
  let out := reset_handler req s in
  config (snd out) = config s
  ∧ setupToken (snd out) = setupToken s
  ∧ users (snd out) = users s
  ∧ (∀ p, p ≠ setup_completed_path → files (snd out) !! p = files s !! p)
  ∧ (succeeded (fst out) = true →
       fst out = Ok (Json 200 (reset_payload s))
       ∧ prop (reset_payload s) "setupToken" = token_value (setupToken s))
  ∧ (succeeded (fst out) = false →
       snd out = s ∧ is_Some (files s !! setup_completed_path)
       ∧ setup_completed_path ∈ faulty s).
Proof.
  cbv zeta. rewrite reset_handler_eq.
  destruct (files s !! setup_completed_path) as [c|] eqn:Hmarker.
  - case_decide; simpl.
    + repeat split; try done; by eexists.
    + repeat split; try done. intros p Hp. by apply lookup_delete_ne.
  - simpl. by repeat split.
Qed.

(** ** The commit of the configuration *)

Lemma updateConfig_eq newConfig s :
  updateConfig newConfig s =
    let s1 := set_config (newConfig ∪ config s) s in
    if decide (wizard_config_path ∈ faulty s)
    then (Throw ("EACCES: open " +:+ wizard_config_path), s1)
    else (Ok true,
          set_files (<[wizard_config_path := JsonDoc newConfig]> (files s)) s1).
Proof.
  unfold updateConfig, mbind, M_bind, modify, try_catch, fs_mkdir, fs_writeJson.
  change (path_join config_dir "wizard-config.json") with wizard_config_path.
  simpl.
  destruct (decide (config_dir ∈ faulty s)); simpl;
    by destruct (decide (wizard_config_path ∈ faulty s)).
Qed.

(** X8.  [updateConfig] assigns every key of the new configuration to the
    live configuration object and keeps the other keys, and it does so
    before it writes the record: when the record cannot be written the
    call throws, no file has changed, and the live configuration is
    changed all the same.  The flag and the token are never touched. *)
Theorem updateConfig_merges_even_when_the_record_fails (newConfig : Obj) (s : State) :
  let out := updateConfig newConfig s in
  (∀ k, config (snd out) !! k
        = match newConfig !! k with Some v => Some v | None => config s !! k end)
  ∧ (fst out = Ok true ↔ wizard_config_path ∉ faulty s)
  ∧ (wizard_config_path ∉ faulty s →
       files (snd out) !! wizard_config_path = Some (JsonDoc newConfig))
  ∧ (wizard_config_path ∈ faulty s →
       (∃ e, fst out = Throw e) ∧ files (snd out) = files s)
  ∧ setupCompleted (snd out) = setupCompleted s
  ∧ setupToken (snd out) = setupToken s.
Proof.
  cbv zeta. rewrite updateConfig_eq. cbv zeta.
  assert (∀ k, (newConfig ∪ config s) !! k
               = match newConfig !! k with Some v => Some v | None => config s !! k end)
    as Hmerge.
  { intros k. rewrite lookup_union. by destruct (newConfig !! k), (config s !! k). }
  case_decide as Hdisk; simpl.
  - repeat split; try done; by eexists.
  - repeat split; try done; by rewrite lookup_insert_eq.
Qed.

(** ** The submission handler, stage by stage *)

Lemma remove_setup_token_eq s :
  remove_setup_token s =
    (Ok tt,
     if truthy (token_value (setupToken s))
     then match tokenPath s with
          | Some p =>
              if decide (p ∈ faulty s) then s
              else match files s !! p with
                   | Some _ => set_files (delete p (files s)) s
                   | None => s
                   end
          | None => s
          end
     else s).
Proof.
  unfold remove_setup_token, mbind, M_bind, gets, try_catch, fs_unlinkSync, throw.
  destruct (truthy _); [|done].
  destruct (tokenPath s) as [p|]; [|done].
  case_decide; [done|]. by destruct (files s !! p).
Qed.

Lemma configure_handler_eq configSteps req s :
  configure_handler configSteps req s =
    match processConfigSteps configSteps (body req) req s with
    | (Throw e, s1) =>
        (Ok (Json 500 (failure_payload "Failed to complete setup" e)), s1)
    | (Ok config, s1) =>
        match updateConfig config s1 with
        | (Throw e, s2) =>
            (Ok (Json 500 (failure_payload "Failed to update configuration" e)), s2)
        | (Ok _, s2) =>
            match markSetupCompleted (prop config "__adminPassword") s2 with
            | (Throw e, s3) =>
                (Ok (Json 500
                       (failure_payload "Failed to mark setup as completed" e)), s3)
            | (Ok _, s3) =>
                (Ok (Json 200 (success_payload config)), snd (remove_setup_token s3))
            end
        end
    end.
Proof.
  unfold configure_handler, try_catch, mbind, M_bind.
  destruct (processConfigSteps _ _ _ _) as [[config|e] s1]; [|done].
  destruct (updateConfig config s1) as [[b|e] s2]; simpl; [|done].
  destruct (markSetupCompleted _ s2) as [[b'|e] s3]; simpl; [|done].
  by rewrite remove_setup_token_eq.
Qed.

Lemma succeeded_failure message e :
  succeeded (Ok (Json 500 (failure_payload message e))) = false.
Proof. done. Qed.

Lemma succeeded_success config :
  succeeded (Ok (Json 200 (success_payload config))) = true.
Proof.
  unfold succeeded, success_payload, prop, strict_eq.
  by rewrite lookup_insert_eq.
Qed.

Lemma processConfigSteps_untouched configSteps data req s out s' :
  Forall (λ step, keeps_setup (step_process step)) configSteps →
  processConfigSteps configSteps data req s = (out, s') → untouched s s'.
Proof.
  intros Hsteps. unfold processConfigSteps.
  destruct (snd (processLoop _ _ _ _ _ _)) as [[[c a]|e] s1] eqn:Hloop;
    intros [= _ <-]; by eapply processLoop_untouched.
Qed.

(** X10.  For steps that leave the setup artifacts alone and a token path
    as the start-up leaves it: after a submission the flag in memory is set
    exactly when the answer is a success or the flag was set before, and
    after a success [isSetupCompleted] answers [true]. *)
Theorem completed_exactly_when_the_submission_succeeds
    (configSteps : list ConfigStep) (req : Request) (s : State) :
  Forall (λ step, keeps_setup (step_process step)) configSteps →
  tokenPath s = Some setup_token_path →
  let out := configure_handler configSteps req s in
  setupCompleted (snd out) = succeeded (fst out) || setupCompleted s
  ∧ (succeeded (fst out) = true → isSetupCompleted (snd out) = (Ok true, snd out)).
Proof.
  intros Hsteps Hpath. cbv zeta. rewrite configure_handler_eq.
  destruct (processConfigSteps _ _ _ _) as [[config|e] s1] eqn:Hrun;
    apply processConfigSteps_untouched in Hrun as (_ & Hflag & _ & Hpath1 & _);
    try done.
  rewrite updateConfig_eq. cbv zeta. case_decide; [done|].
  destruct (markSetupCompleted _ _) as [[b|e] s3] eqn:Hmark.
  - pose proof (markSetupCompleted_frame _ _ _ _ Hmark) as (Hpath3 & _).
    apply markSetupCompleted_outcome in Hmark as (Hset & Hmarker & _).
    simpl in Hpath3.
    cbn [fst snd]. rewrite succeeded_success, remove_setup_token_eq. cbn [snd orb].
    rewrite isSetupCompleted_eq, Hpath3, Hpath1, Hpath.
    assert (bool_decide (is_Some (files s3 !! setup_completed_path)) = true)
      as Hseen by by apply bool_decide_eq_true_2.
    destruct (truthy _); [|by rewrite Hseen].
    case_decide; [by rewrite Hseen|].
    destruct (files s3 !! setup_token_path) eqn:Hp; [|by rewrite Hseen]. simpl.
    split; [done|]. intros _.
    by rewrite lookup_delete_ne, Hseen.
  - cbn [fst snd]. rewrite succeeded_failure. split; [|done].
    apply markSetupCompleted_outcome in Hmark. simpl in Hmark |- *. congruence.
Qed.

Lemma completed_exactly_when_the_submission_succeeds_witness :
  setupCompleted
    (snd (configure_handler Sample.registry
            (Sample.configure_with "5f2c9a" Sample.form) Sample.fresh))
  = true.
Proof.
  destruct (completed_exactly_when_the_submission_succeeds Sample.registry
              (Sample.configure_with "5f2c9a" Sample.form) Sample.fresh
              (default_steps_keep_setup (H:=Sample.sample_bcrypt)) eq_refl)
    as [Hflag _].
  rewrite Hflag. by vm_compute.
Defined.

(** X11.  When the pipeline returned a delta but the record of it cannot
    be written, the submission is answered with "Failed to update
    configuration", and the state is the one the pipeline left except that
    the delta is already merged into the live configuration: marker, flag
    and token are as they were, the configuration is not. *)
Theorem failed_record_still_changes_the_live_configuration
    (configSteps : list ConfigStep) (req : Request) (s s1 : State) (delta : Obj) :
  processConfigSteps configSteps (body req) req s = (Ok delta, s1) →
  wizard_config_path ∈ faulty s1 →
  configure_handler configSteps req s
  = (Ok (Json 500 (failure_payload "Failed to update configuration"
                     ("EACCES: open " +:+ wizard_config_path))),
     set_config (delta ∪ config s1) s1).
Proof.
  intros Hrun Hdisk. rewrite configure_handler_eq, Hrun, updateConfig_eq.
  cbv zeta. by rewrite decide_True.
Qed.

Lemma failed_record_still_changes_the_live_configuration_witness :
  let out := configure_handler Sample.registry
               (Sample.configure_with "5f2c9a" Sample.form)
               (Cases.refusing wizard_config_path) in
  succeeded (fst out) = false
  ∧ config (snd out) !! "domain" = Some (VStr "example.com")
  ∧ setupCompleted (snd out) = false.
Proof.
  cbv zeta.
  assert (processConfigSteps Sample.registry Sample.form
            (Sample.configure_with "5f2c9a" Sample.form)
            (Cases.refusing wizard_config_path)
          = (Ok (default_delta Sample.form
                   (Sample.configure_with "5f2c9a" Sample.form)),
             snd (processConfigSteps Sample.registry Sample.form
                    (Sample.configure_with "5f2c9a" Sample.form)
                    (Cases.refusing wizard_config_path))))
    as Hrun by (vm_compute; reflexivity).
  rewrite (failed_record_still_changes_the_live_configuration _
             (Sample.configure_with "5f2c9a" Sample.form) _ _ _ Hrun)
    by (by vm_compute).
  by vm_compute.
Defined.

(** X12.  When the pipeline returned a delta with a password and the disk
    takes the record and the marker but refuses the sidecar password file,
    the submission is answered with "Failed to mark setup as completed"
    although the marker is on disk: [isSetupCompleted] answers [true],
    the flag in memory is as before, the record is written, and the token
    is still there, on disk and in memory. *)
Theorem failed_sidecar_leaves_the_marker_on_disk
    (configSteps : list ConfigStep) (req : Request) (s s1 : State) (delta : Obj)
    (password : string) :
  processConfigSteps configSteps (body req) req s = (Ok delta, s1) →
  prop delta "__adminPassword" = VStr password → password ≠ EmptyString →
  wizard_config_path ∉ faulty s1 →
  setup_completed_path ∉ faulty s1 →
  admin_password_path ∈ faulty s1 →
  let out := configure_handler configSteps req s in
  fst out = Ok (Json 500 (failure_payload "Failed to mark setup as completed"
                            ("EACCES: open " +:+ admin_password_path)))
  ∧ setupCompleted (snd out) = setupCompleted s1
  ∧ isSetupCompleted (snd out) = (Ok true, snd out)
  ∧ files (snd out) !! wizard_config_path = Some (JsonDoc delta)
  ∧ files (snd out) !! setup_token_path = files s1 !! setup_token_path
  ∧ setupToken (snd out) = setupToken s1.
Proof.
  intros Hrun Hpw Hne Hrecord Hmarker Hsidecar. cbv zeta.
  rewrite configure_handler_eq, Hrun, updateConfig_eq. cbv zeta.
  rewrite decide_False by done.
  rewrite markSetupCompleted_eq, Hpw. cbv zeta.
  change (faulty (set_files _ (set_config _ s1))) with (faulty s1).
  rewrite decide_False, decide_True by done.
  assert (truthy (VStr password) = true) as ->.
  { simpl. by destruct (String.eqb_spec password EmptyString). }
  rewrite isSetupCompleted_eq. simpl.
  rewrite lookup_insert_eq.
  rewrite (lookup_insert_ne _ setup_completed_path wizard_config_path) by done.
  rewrite (lookup_insert_ne _ setup_completed_path setup_token_path) by done.
  rewrite lookup_insert_eq.
  by rewrite (lookup_insert_ne _ wizard_config_path setup_token_path).
Qed.

Lemma failed_sidecar_leaves_the_marker_on_disk_witness :
  let out := configure_handler Sample.registry
               (Sample.configure_with "5f2c9a" Sample.form)
               (Cases.refusing admin_password_path) in
  succeeded (fst out) = false
  ∧ fst (isSetupCompleted (snd out)) = Ok true.
Proof.
  cbv zeta.
  assert (processConfigSteps Sample.registry Sample.form
            (Sample.configure_with "5f2c9a" Sample.form)
            (Cases.refusing admin_password_path)
          = (Ok (default_delta Sample.form
                   (Sample.configure_with "5f2c9a" Sample.form)),
             snd (processConfigSteps Sample.registry Sample.form
                    (Sample.configure_with "5f2c9a" Sample.form)
                    (Cases.refusing admin_password_path))))
    as Hrun by (vm_compute; reflexivity).
  destruct (failed_sidecar_leaves_the_marker_on_disk _
              (Sample.configure_with "5f2c9a" Sample.form) _ _ _ "secretpw" Hrun)
    as (Hout & _ & Hseen & _); [by vm_compute..|].
  by rewrite Hout, Hseen.
Defined.

(** X13.  The removal of the token file after a successful submission is
    best effort: the answer is a success either way; the file is gone when
    the disk allows the removal and is still there when it does not; the
    token in memory is never cleared. *)
Theorem token_removal_is_best_effort
    (configSteps : list ConfigStep) (req : Request) (s s1 : State) (delta : Obj)
    (t : string) :
  processConfigSteps configSteps (body req) req s = (Ok delta, s1) →
  tokenPath s1 = Some setup_token_path →
  setupToken s1 = Some t → t ≠ EmptyString →
  let out := configure_handler configSteps req s in
  succeeded (fst out) = true →
  files (snd out) !! setup_token_path
  = (if decide (setup_token_path ∈ faulty s1)
     then files s1 !! setup_token_path else None)
  ∧ setupToken (snd out) = Some t.
Proof.
  intros Hrun Hpath Htoken Ht. cbv zeta.
  rewrite configure_handler_eq, Hrun, updateConfig_eq. cbv zeta.
  case_decide; [done|].
  destruct (markSetupCompleted _ _) as [[b|e] s3] eqn:Hmark; [|done].
  apply markSetupCompleted_frame in Hmark as (Hpath3 & Hfaulty3 & Htoken3 & _ & Hfiles3).
  simpl in Hpath3, Hfaulty3, Htoken3.
  intros _. rewrite remove_setup_token_eq. cbn [snd].
  rewrite Hpath3, Hpath, Hfaulty3, Htoken3, Htoken.
  assert (truthy (token_value (Some t)) = true) as ->.
  { simpl. by destruct (String.eqb_spec t EmptyString). }
  assert (files s3 !! setup_token_path = files s1 !! setup_token_path) as Hsame.
  { rewrite Hfiles3 by done. simpl. by rewrite lookup_insert_ne. }
  case_decide.
  - split; [done|congruence].
  - destruct (files s3 !! setup_token_path) eqn:Hfile; simpl.
    + split; [apply lookup_delete_eq|congruence].
    + split; [done|congruence].
Qed.

Lemma token_removal_is_best_effort_witness :
  let out := configure_handler Sample.registry
               (Sample.configure_with "5f2c9a" Sample.form)
               (Cases.refusing setup_token_path) in
  succeeded (fst out) = true
  ∧ files (snd out) !! setup_token_path = Some (Text "5f2c9a").
Proof.
  cbv zeta.
  assert (processConfigSteps Sample.registry Sample.form
            (Sample.configure_with "5f2c9a" Sample.form)
            (Cases.refusing setup_token_path)
          = (Ok (default_delta Sample.form
                   (Sample.configure_with "5f2c9a" Sample.form)),
             snd (processConfigSteps Sample.registry Sample.form
                    (Sample.configure_with "5f2c9a" Sample.form)
                    (Cases.refusing setup_token_path))))
    as Hrun by (vm_compute; reflexivity).
  assert (succeeded (fst (configure_handler Sample.registry
            (Sample.configure_with "5f2c9a" Sample.form)
            (Cases.refusing setup_token_path))) = true)
    as Hok by (by vm_compute).
  split; [exact Hok|].
  destruct (token_removal_is_best_effort _
              (Sample.configure_with "5f2c9a" Sample.form) _ _ _ "5f2c9a" Hrun)
    as (Hfile & _); [by vm_compute..|exact Hok|].
  rewrite Hfile. by vm_compute.
Defined.

(** ** How the pipeline merges *)

Lemma processLoop_app before after data req config adminPassword s :
  snd (processLoop (before ++ after) data req config adminPassword s) =
    match snd (processLoop before data req config adminPassword s) with
    | (Ok (config0, adminPassword0), s0) =>
        snd (processLoop after data req config0 adminPassword0 s0)
    | (Throw e, s0) => (Throw e, s0)
    end.
Proof.
  revert config adminPassword s.
  induction before as [|step rest IH]; intros config adminPassword s; simpl.
  - done.
  - destruct (step_process step data req s) as [[stepConfig|e] s1]; [|done].
    match goal with |- context [processLoop rest data req ?c ?a ?t] =>
      specialize (IH c a t)
    end.
    repeat match goal with |- context [processLoop ?l data req ?c ?a ?t] =>
      destruct (processLoop l data req c a t) as [? ?] end.
    done.
Qed.

(** X14.  The pipeline merges with the last write winning.  If the steps
    before the last one yield a configuration and the last step then
    returns its delta, the run returns, and under every key other than
    [__adminPassword] the result holds the value of the last delta where it
    has one and the earlier value otherwise: no earlier key is lost. *)
Theorem later_step_overwrites_earlier_keys
    (before : list ConfigStep) (last : ConfigStep) (data : Obj) (req : Request)
    (s s0 s1 : State) (earlier delta : Obj) :
  processConfigSteps before data req s = (Ok earlier, s0) →
  step_process last data req s0 = (Ok delta, s1) →
  ∃ config,
    processConfigSteps (before ++ [last]) data req s = (Ok config, s1)
    ∧ ∀ k, k ≠ "__adminPassword" →
           config !! k = match delta !! k with
                         | Some v => Some v
                         | None => earlier !! k
                         end.
Proof.
  unfold processConfigSteps. rewrite processLoop_app.
  destruct (snd (processLoop before _ _ _ _ _)) as [[[c0 a0]|e] s0'] eqn:Hbefore;
    [|done].
  intros [= <- <-] Hlast. simpl. rewrite Hlast. simpl.
  eexists. split; [done|]. intros k Hk.
  assert (spread c0 delta !! k
          = match delta !! k with Some v => Some v | None => c0 !! k end) as Hspread.
  { unfold spread. rewrite lookup_union. by destruct (delta !! k), (c0 !! k). }
  assert (∀ (a : JSVal) (m : Obj),
            (if truthy a then <["__adminPassword" := a]> m else m) !! k = m !! k)
    as Hsame.
  { intros a m. destruct (truthy a); [|done]. by rewrite lookup_insert_ne. }
  rewrite !Hsame, Hspread. by destruct (delta !! k).
Qed.

Lemma later_step_overwrites_earlier_keys_witness :
  match fst (processConfigSteps Sample.registered_twice ∅
               (Sample.reset_with "5f2c9a") Sample.fresh) with
  | Ok config => config !! "first" = Some (VBool true)
                 ∧ config !! "second" = Some (VBool true)
  | Throw _ => False
  end.
Proof.
  set (first := mkStep "x" "X" EmptyString true 5 (CustomTemplate "<p>x</p>")
                  (λ _ _, mret {[ "first" := VBool true ]})).
  set (second := mkStep "x" "X again" EmptyString true 5 (CustomTemplate "<p>x</p>")
                   (λ _ _, mret {[ "second" := VBool true ]})).
  assert (processConfigSteps [first] ∅ (Sample.reset_with "5f2c9a") Sample.fresh
          = (Ok {[ "first" := VBool true ]}, Sample.fresh)) as Hfirst
    by (vm_compute; reflexivity).
  assert (step_process second ∅ (Sample.reset_with "5f2c9a") Sample.fresh
          = (Ok {[ "second" := VBool true ]}, Sample.fresh)) as Hsecond
    by reflexivity.
  destruct (later_step_overwrites_earlier_keys _ _ _ _ _ _ _ _ _ Hfirst Hsecond)
    as (config & Hrun & Hkeys).
  change (processConfigSteps Sample.registered_twice ∅ (Sample.reset_with "5f2c9a")
            Sample.fresh = (Ok config, Sample.fresh)) in Hrun.
  rewrite Hrun. cbn [fst].
  split; rewrite Hkeys by done; by vm_compute.
Defined.

(** ** The stock steps *)

Lemma find_admin_after_update uid passwordHash rows :
  List.find (λ u, String.eqb (user_name u) "admin") (set_password uid passwordHash rows)
  = (λ u, if Z.eqb (user_id u) uid
          then mkUser (user_id u) (user_uuid u) (user_name u) passwordHash else u)
    <$> List.find (λ u, String.eqb (user_name u) "admin") rows.
Proof.
  induction rows as [|u rows IH]; simpl; [done|].
  destruct (Z.eqb (user_id u) uid) eqn:Hid; simpl;
    destruct (String.eqb (user_name u) "admin"); simpl; by rewrite ?Hid.
Qed.

Lemma first_service_skips_unregistered svcs before name after service :
  Forall (λ earlier, svcs !! earlier = None) before →
  svcs !! name = Some service →
  first_service (before ++ name :: after) svcs = Some service.
Proof.
  intros Hbefore Hname.
  induction Hbefore as [|earlier before Hnone _ IH]; cbn [app first_service].
  - by rewrite Hname.
  - by rewrite Hnone.
Qed.

Lemma first_service_none svcs names :
  first_service names svcs = None ↔ ∀ name, name ∈ names → svcs !! name = None.
Proof.
  induction names as [|name names IH]; cbn [first_service].
  - split; [|done]. intros _ name Hin. by apply elem_of_nil in Hin.
  - destruct (svcs !! name) as [service|] eqn:Hname.
    + split; [done|]. intros Hnone. rewrite Hnone in Hname; [done|left].
    + rewrite IH. split.
      * intros Hnone other [->|Hin]%elem_of_cons; [done|by apply Hnone].
      * intros Hnone other Hin. apply Hnone. by right.
Qed.

Section StockSteps.
Context `{Bcrypt}.

Lemma stock_pipeline_eq (process : Process) data req s :
  processConfigSteps
    [ mkStep "subdomain" "Subdomain Configuration"
        "Configure how subdomains work in your Puter instance"
        true 10 SubdomainStepTemplate subdomain_process;
      mkStep "domain" "Domain Configuration"
        "Set up the domain name for your Puter instance"
        true 20 DomainStepTemplate domain_process;
      mkStep "adminPassword" "Admin Password"
        "Set the password for the admin user"
        true 30 PasswordStepTemplate process ] data req s =
    if truthy (prop data "useNipIo") && bool_decide (ip req = None)
    then (Throw "Cannot read properties of undefined (reading 'replace')", s)
    else match process data req s with
         | (Ok d3, s3) =>
             (Ok (if truthy (prop data "adminPassword")
                  then <["__adminPassword" := prop data "adminPassword"]>
                         (d3 ∪ stock_delta data req)
                  else d3 ∪ stock_delta data req), s3)
         | (Throw e, s3) => (Throw e, s3)
         end.
Proof.
  unfold processConfigSteps, stock_delta. simpl.
  unfold domain_process.
  destruct (truthy (prop data "useNipIo")) eqn:Hnip; simpl.
  - destruct (ip req) as [addr|]; simpl; [|done].
    destruct (process data req s) as [[d3|e] s3]; simpl; [|done].
    unfold spread. rewrite (right_id_L ∅ (∪)).
    rewrite (insert_union_singleton_l {[ "experimental_no_subdomain" := _ ]} "domain").
    by destruct (truthy (prop data "adminPassword")) eqn:Hpw; simpl; rewrite ?Hpw.
  - destruct (process data req s) as [[d3|e] s3]; simpl; [|done].
    unfold spread. rewrite (right_id_L ∅ (∪)).
    rewrite (insert_union_singleton_l {[ "experimental_no_subdomain" := _ ]} "domain").
    by destruct (truthy (prop data "adminPassword")) eqn:Hpw; simpl; rewrite ?Hpw.
Qed.

(** What a submission that the stock steps accept looks like. *)
Lemma default_pipeline_accepts data req s delta s' :
  processConfigSteps defaultConfigSteps data req s = (Ok delta, s') →
  delta = default_delta data req
  ∧ (prop data "adminPassword" = prop delta "__adminPassword"
     ∧ (∃ password, prop data "adminPassword" = VStr password
                    ∧ password ≠ EmptyString)
     ∨ truthy (prop data "adminPassword") = false
       ∧ prop delta "__adminPassword" = VUndef).
Proof.
  unfold defaultConfigSteps. rewrite stock_pipeline_eq.
  destruct (_ && _); [done|].
  assert (prop (stock_delta data req) "__adminPassword" = VUndef) as Hnone.
  { unfold stock_delta, prop. by rewrite lookup_insert_ne, lookup_singleton_ne. }
  unfold adminPassword_process, default_delta.
  destruct (prop data "adminPassword") as [| |b|z|password] eqn:Hpw.
  1,2: simpl; rewrite (left_id_L ∅ (∪)); intros [= <- _]; split; [done|by right].
  1,2: destruct (truthy _) eqn:Htruthy; simpl; [done|];
       rewrite (left_id_L ∅ (∪)); intros [= <- _]; split; [done|by right].
  assert (∀ d3 s3 r,
            (Ok (if truthy (VStr password)
                 then <["__adminPassword" := VStr password]> (d3 ∪ stock_delta data req)
                 else d3 ∪ stock_delta data req), s3) = (r, s') →
            d3 = ∅ → r = Ok delta →
            delta = (if truthy (VStr password)
                     then <["__adminPassword" := VStr password]> (stock_delta data req)
                     else stock_delta data req)
            ∧ (VStr password = prop delta "__adminPassword"
               ∧ (∃ p, VStr password = VStr p ∧ p ≠ EmptyString)
               ∨ truthy (VStr password) = false
                 ∧ prop delta "__adminPassword" = VUndef)) as Hcase.
  { intros d3 s3 r [= <- _] -> [= <-]. rewrite (left_id_L ∅ (∪)).
    split; [done|]. simpl.
    destruct (negb (String.eqb password EmptyString)) eqn:Htruthy.
    - left. split; [unfold prop; by rewrite lookup_insert_eq|].
      exists password. split; [done|]. by intros ->.
    - right. split; [done|]. apply Hnone. }
  destruct (_ && _).
  - unfold try_catch, mbind, M_bind.
    destruct (updateAdminPassword password s) as [[u|e] s1]; simpl;
      intros Hrun; by eapply Hcase.
  - simpl. intros Hrun; by eapply Hcase.
Qed.

Lemma default_delta_requires_restart data req :
  requiresRestart (default_delta data req) = true.
Proof.
  unfold requiresRestart, js_in, default_delta, stock_delta. simpl.
  destruct (truthy (prop data "adminPassword")).
  - by rewrite lookup_insert_ne, lookup_insert_eq.
  - by rewrite lookup_insert_eq.
Qed.

(** X15.  The outcome of the stock pipeline, for every submission.  It
    throws in two cases only: nip.io was asked for and the request has no
    IP address, or the password is a truthy value that is not a string.
    Otherwise it returns the stock delta whatever happens in the update of
    the credential: no admin user, no database service, a failing
    statement or a failed verification never fail the pipeline. *)
Theorem default_pipeline_outcome (data : Obj) (req : Request) (s : State) :
  fst (processConfigSteps defaultConfigSteps data req s) =
    if truthy (prop data "useNipIo") && bool_decide (ip req = None)
    then Throw "Cannot read properties of undefined (reading 'replace')"
    else match prop data "adminPassword" with
         | VStr _ => Ok (default_delta data req)
         | other => if truthy other
                    then Throw "data.adminPassword.trim is not a function"
                    else Ok (default_delta data req)
         end.
Proof.
  unfold defaultConfigSteps. rewrite stock_pipeline_eq.
  destruct (_ && _); [done|].
  unfold adminPassword_process, default_delta.
  destruct (prop data "adminPassword") as [| |b|z|password] eqn:Hpw;
    try (destruct (truthy _) eqn:Htruthy; simpl; [done|]);
    rewrite ?(left_id_L ∅ (∪)); try done.
  destruct (_ && _); simpl.
  - unfold try_catch, mbind, M_bind.
    destruct (updateAdminPassword password s) as [[u|e] s']; simpl;
      by rewrite (left_id_L ∅ (∪)).
  - by rewrite (left_id_L ∅ (∪)).
Qed.

(** X16.  Every submission that the stock pipeline accepts requires a
    restart: its delta always has the keys [experimental_no_subdomain] and
    [domain], and without nip.io the domain is whatever [domainName] was
    submitted, [undefined] when the field is missing. *)
Theorem accepted_default_submission_requires_restart
    (data : Obj) (req : Request) (s s' : State) (delta : Obj) :
  processConfigSteps defaultConfigSteps data req s = (Ok delta, s') →
  requiresRestart delta = true
  ∧ is_Some (delta !! "experimental_no_subdomain")
  ∧ (truthy (prop data "useNipIo") = false →
     delta !! "domain" = Some (prop data "domainName")).
Proof.
  intros (-> & _)%default_pipeline_accepts.
  assert (∀ k, k ≠ "__adminPassword" →
               default_delta data req !! k = stock_delta data req !! k) as Hkeys.
  { intros k Hk. unfold default_delta.
    destruct (truthy _); [|done]. by rewrite lookup_insert_ne. }
  split; [apply default_delta_requires_restart|]. split.
  - rewrite Hkeys by done. unfold stock_delta.
    rewrite lookup_insert_ne, lookup_singleton_eq by done. by eexists.
  - intros Hnip. rewrite Hkeys by done. unfold stock_delta.
    by rewrite lookup_insert_eq, Hnip.
Qed.

(** X17.  A submission that the stock pipeline accepts, on a disk that
    takes the writes of the setup files and with the token path as the
    start-up leaves it, completes the setup: the answer is the success
    body for the delta and asks for a restart; the flag is set and
    [isSetupCompleted] answers [true]; every key of the delta is in the
    live configuration and the delta is recorded; the sidecar file holds
    the submitted password if there is one; the token file is removed. *)
Theorem default_submission_completes_setup
    (req : Request) (s : State) (delta : Obj) :
  fst (processConfigSteps defaultConfigSteps (body req) req s) = Ok delta →
  (∀ p, p ∈ setup_paths → p ∉ faulty s) →
  tokenPath s = Some setup_token_path →
  let out := configure_handler defaultConfigSteps req s in
  fst out = Ok (Json 200 (success_payload delta))
  ∧ prop (success_payload delta) "requiresRestart" = VBool true
  ∧ setupCompleted (snd out) = true
  ∧ isSetupCompleted (snd out) = (Ok true, snd out)
  ∧ (∀ k v, delta !! k = Some v → config (snd out) !! k = Some v)
  ∧ files (snd out) !! wizard_config_path = Some (JsonDoc delta)
  ∧ files (snd out) !! admin_password_path
    = (if truthy (prop (body req) "adminPassword")
       then Some (Text (js_to_string (prop (body req) "adminPassword")))
       else files s !! admin_password_path)
  ∧ (truthy (token_value (setupToken s)) = true →
     files (snd out) !! setup_token_path = None).
Proof.
  intros Hout Hdisk Hpath. cbv zeta.
  destruct (processConfigSteps defaultConfigSteps (body req) req s)
    as [out s1] eqn:Hrun.
  simpl in Hout. subst out.
  pose proof (processConfigSteps_untouched _ _ _ _ _ _ default_steps_keep_setup Hrun)
    as (_ & Hflag1 & Htoken1 & Hpath1 & Hfaulty1 & Hfiles1).
  pose proof (default_pipeline_accepts _ _ _ _ _ Hrun) as (Hdelta & Hshape).
  pose proof (default_delta_requires_restart (body req) req) as Hrestart.
  rewrite <- Hdelta in Hrestart.
  assert (∀ p, p ∈ setup_paths → p ∉ faulty s1) as Hdisk1.
  { intros p Hp. rewrite Hfaulty1. by apply Hdisk. }
  assert ((wizard_config_path ∉ faulty s1) ∧ (setup_completed_path ∉ faulty s1)
          ∧ (admin_password_path ∉ faulty s1) ∧ (setup_token_path ∉ faulty s1))
    as (Hd1 & Hd2 & Hd3 & Hd4).
  { repeat split; apply Hdisk1; unfold setup_paths; rewrite !elem_of_cons; tauto. }
  rewrite configure_handler_eq, Hrun, updateConfig_eq. cbv zeta.
  rewrite decide_False by done.
  destruct (markSetupCompleted _ _) as [[b|e] s3] eqn:Hmark.
  - pose proof (markSetupCompleted_frame _ _ _ _ Hmark)
      as (Hpath3 & Hfaulty3 & Htoken3 & Hconfig3 & Hfiles3).
    apply markSetupCompleted_outcome in Hmark as (Hset & Hmarker & Hsidecar).
    simpl in Hpath3, Hfaulty3, Htoken3, Hconfig3, Hsidecar.
    rewrite remove_setup_token_eq. cbn [fst snd].
    rewrite Hpath3, Hpath1, Hpath, Hfaulty3, Htoken3, Htoken1.
    rewrite decide_False by done.
    assert (files s3 !! wizard_config_path = Some (JsonDoc delta)) as Hrecord.
    { rewrite Hfiles3 by done. simpl. by rewrite lookup_insert_eq. }
    assert (files s3 !! admin_password_path
            = if truthy (prop (body req) "adminPassword")
              then Some (Text (js_to_string (prop (body req) "adminPassword")))
              else files s !! admin_password_path) as Hadmin.
    { rewrite Hsidecar.
      destruct Hshape as [(<- & password & Hpw & Hne)|(Hfalsy & ->)].
      - rewrite Hpw. simpl. by destruct password.
      - rewrite Hfalsy. simpl. rewrite lookup_insert_ne by done. apply Hfiles1.
        unfold setup_paths. rewrite !elem_of_cons. tauto. }
    assert (∀ k v, delta !! k = Some v → config s3 !! k = Some v) as Hkeys.
    { intros k v Hk. rewrite Hconfig3. by apply lookup_union_Some_l. }
    assert (bool_decide (is_Some (files s3 !! setup_completed_path)) = true)
      as Hseen by by apply bool_decide_eq_true_2.
    split; [done|]. split.
    { unfold success_payload, prop. rewrite Hrestart.
      by rewrite lookup_insert_ne, lookup_insert_ne, lookup_insert_eq. }
    rewrite isSetupCompleted_eq.
    destruct (truthy (token_value (setupToken s))) eqn:Htruthy.
    + destruct (files s3 !! setup_token_path) eqn:Hfile; simpl.
      * rewrite (lookup_delete_ne _ setup_token_path setup_completed_path) by done.
        rewrite (lookup_delete_ne _ setup_token_path wizard_config_path) by done.
        rewrite (lookup_delete_ne _ setup_token_path admin_password_path) by done.
        rewrite Hseen, lookup_delete_eq. by repeat split.
      * rewrite Hseen. by repeat split.
    + rewrite Hseen. by repeat split.
  - exfalso. rewrite markSetupCompleted_eq in Hmark. cbv zeta in Hmark.
    destruct Hshape as [(Hsame & password & Hpw & Hne)|(_ & Hundef)].
    + rewrite <- Hsame, Hpw in Hmark. simpl in Hmark. revert Hmark.
      case_decide; [done|]. destruct (negb _); [|done]. by case_decide.
    + rewrite Hundef in Hmark. simpl in Hmark. revert Hmark. by case_decide.
Qed.
End StockSteps.

Lemma accepted_default_submission_requires_restart_witness :
  match fst (processConfigSteps Sample.registry Cases.empty_form
               (Sample.configure_with "5f2c9a" Cases.empty_form) Sample.fresh) with
  | Ok delta => requiresRestart delta = true ∧ delta !! "domain" = Some VUndef
  | Throw _ => False
  end.
Proof.
  assert (processConfigSteps Sample.registry Cases.empty_form
            (Sample.configure_with "5f2c9a" Cases.empty_form) Sample.fresh
          = (Ok (default_delta Cases.empty_form
                   (Sample.configure_with "5f2c9a" Cases.empty_form)),
             Sample.fresh))
    as Hrun by (vm_compute; reflexivity).
  destruct (accepted_default_submission_requires_restart
              (H:=Sample.sample_bcrypt) _ _ _ _ _ Hrun)
    as (Hrestart & _ & Hdomain).
  rewrite Hrun. cbn [fst]. split; [exact Hrestart|].
  rewrite Hdomain by (by vm_compute). by vm_compute.
Defined.

Lemma default_submission_completes_setup_witness :
  let out := configure_handler Sample.registry
               (Sample.configure_with "5f2c9a" Sample.form) Sample.fresh in
  succeeded (fst out) = true
  ∧ config (snd out) !! "domain" = Some (VStr "example.com")
  ∧ files (snd out) !! setup_token_path = None.
Proof.
  cbv zeta.
  assert (fst (processConfigSteps Sample.registry Sample.form
                 (Sample.configure_with "5f2c9a" Sample.form) Sample.fresh)
          = Ok (default_delta Sample.form
                  (Sample.configure_with "5f2c9a" Sample.form)))
    as Hrun by (vm_compute; reflexivity).
  destruct (default_submission_completes_setup (H:=Sample.sample_bcrypt)
              (Sample.configure_with "5f2c9a" Sample.form) Sample.fresh _ Hrun)
    as (Hout & _ & _ & _ & Hkeys & _ & _ & Htoken).
  - intros p Hp. by vm_compute.
  - reflexivity.
  - unfold Sample.registry. rewrite Hout. split; [apply succeeded_success|].
    split; [apply Hkeys; by vm_compute|apply Htoken; by vm_compute].
Defined.

(** ** The credential update, failure by failure *)

Section Credential.
Context `{Bcrypt}.

(** X18.  A password of white space only is reported as set although it is
    not: [updateAdminPassword] refuses it and changes nothing, the
    password step skips the update, and the pipeline still returns the
    delta with the blank password under [__adminPassword], to be written
    to the sidecar file. *)
Theorem blank_password_is_reported_but_not_set
    (data : Obj) (req : Request) (s : State) (password : string) :
  prop data "adminPassword" = VStr password →
  password ≠ EmptyString → js_trim password = EmptyString →
  truthy (prop data "useNipIo") && bool_decide (ip req = None) = false →
  updateAdminPassword password s = (Throw "Empty password provided", s)
  ∧ processConfigSteps defaultConfigSteps data req s
    = (Ok (<["__adminPassword" := VStr password]> (stock_delta data req)), s).
Proof.
  intros Hpw Hne Hblank Hnip. split.
  - unfold updateAdminPassword. by rewrite Hblank, orb_true_r.
  - unfold defaultConfigSteps. rewrite stock_pipeline_eq, Hnip.
    unfold adminPassword_process. rewrite Hpw, Hblank. simpl.
    rewrite andb_false_r. simpl. rewrite (left_id_L ∅ (∪)).
    by destruct (String.eqb_spec password EmptyString).
Qed.

(** X19.  A failed update of the credential rolls nothing back.  Either
    the state is untouched, or the failure is the verification after the
    write, and then the row of the admin user already holds the new hash
    although the update is reported as failed. *)
Theorem failed_update_rolls_nothing_back (password : string) (s s' : State)
    (e : string) :
  updateAdminPassword password s = (Throw e, s') →
  s' = s
  ∨ e = "Password verification failed"
    ∧ ∃ admin,
        List.find (λ u, String.eqb (user_name u) "admin") (users s) = Some admin
        ∧ s' = set_users (set_password (user_id admin)
                            (bcrypt_hash password (nextSalt s)) (users s)) s
        ∧ bcrypt_compare password (bcrypt_hash password (nextSalt s)) = false.
Proof.
  unfold updateAdminPassword.
  destruct (_ || _); [intros [= _ <-]; by left|].
  unfold mbind, M_bind, get_user, gets, findDatabaseService, throw, try_catch.
  destruct (List.find _ (users s)) as [admin|] eqn:Hadmin;
    [|intros [= _ <-]; by left].
  destruct (first_service _ _) as [db|]; [|intros [= _ <-]; by left].
  assert (String.eqb (user_name admin) "admin" = true) as Hname.
  { by apply find_some in Hadmin as [_ ?]. }
  destruct (has_knex db); [|destruct (has_query db); [|intros [= _ <-]; by left]].
  all: unfold db_update; destruct (db_fails db); [intros [= _ <-]; by left|];
    simpl; rewrite find_admin_after_update, Hadmin; simpl;
    rewrite Z.eqb_refl; simpl;
    destruct (bcrypt_compare password _) eqn:Hmatch.
  all: try (unfold fs_writeFile; simpl; by case_decide).
  all: intros [= <- <-]; right; split; [done|]; by exists admin.
Qed.

(** X20.  Whatever its outcome, the update of the credential keeps the
    names and the ids of all users, in order, and leaves every row whose
    id is not the id of the admin user as it was. *)
Theorem update_touches_only_the_admin_rows (password : string) (s : State) :
  let s' := snd (updateAdminPassword password s) in
  map user_name (users s') = map user_name (users s)
  ∧ map user_id (users s') = map user_id (users s)
  ∧ ∀ admin i u,
      List.find (λ u, String.eqb (user_name u) "admin") (users s) = Some admin →
      users s !! i = Some u → user_id u ≠ user_id admin →
      users s' !! i = Some u.
Proof.
  assert (∀ uid h rows,
    map user_name (set_password uid h rows) = map user_name rows
    ∧ map user_id (set_password uid h rows) = map user_id rows
    ∧ ∀ i u, rows !! i = Some u → user_id u ≠ uid →
             set_password uid h rows !! i = Some u) as Hset.
  { intros uid h rows. unfold set_password. repeat split.
    - rewrite map_map. apply map_ext. intros u. by destruct (Z.eqb _ _).
    - rewrite map_map. apply map_ext. intros u. by destruct (Z.eqb _ _).
    - intros i u Hi Hu. rewrite list_lookup_fmap, Hi. simpl.
      by destruct (Z.eqb_spec (user_id u) uid). }
  cbv zeta. unfold updateAdminPassword.
  destruct (_ || _); [by repeat split|].
  unfold mbind, M_bind, get_user, gets, findDatabaseService, throw, try_catch.
  destruct (List.find _ (users s)) as [admin|] eqn:Hadmin; [|by repeat split].
  destruct (first_service _ _) as [db|]; [|by repeat split].
  assert (∀ s1, users s1 = users s ∨
                users s1 = set_password (user_id admin)
                             (bcrypt_hash password (nextSalt s)) (users s) →
    map user_name (users s1) = map user_name (users s)
    ∧ map user_id (users s1) = map user_id (users s)
    ∧ ∀ admin0 i u, Some admin = Some admin0 → users s !! i = Some u →
         user_id u ≠ user_id admin0 → users s1 !! i = Some u) as Hcases.
  { intros s1 [->| ->]; [by repeat split|].
    destruct (Hset (user_id admin) (bcrypt_hash password (nextSalt s)) (users s))
      as (Hn & Hi & Hother).
    repeat split; try done. intros admin0 i u [= <-]. apply Hother. }
  destruct (has_knex db); [|destruct (has_query db); [|by apply Hcases; left]].
  all: unfold db_update; destruct (db_fails db); [by apply Hcases; left|];
    simpl; destruct (List.find _ (set_password _ _ _)) as [updated|];
    [|by apply Hcases; right];
    destruct (bcrypt_compare password _); [|by apply Hcases; right];
    unfold fs_writeFile; simpl; case_decide; by apply Hcases; right.
Qed.

(** X21.  When no service is registered under any of the five names that
    [findDatabaseService] tries, it throws, and the update of the
    credential fails without changing anything, other registered services
    notwithstanding. *)
Theorem no_known_service_name_no_update (password : string) (s : State) :
  (∀ name, name ∈ possibleServices → services s !! name = None) →
  findDatabaseService s = (Throw "No database service found", s)
  ∧ ∃ e, updateAdminPassword password s = (Throw e, s).
Proof.
  intros Hnone. apply first_service_none in Hnone.
  assert (findDatabaseService s = (Throw "No database service found", s)) as Hfind.
  { unfold findDatabaseService. by rewrite Hnone. }
  split; [done|].
  unfold updateAdminPassword.
  destruct (_ || _); [by eexists|].
  unfold mbind, M_bind, get_user, gets, throw.
  destruct (List.find _ _); [|by eexists].
  rewrite Hfind. by eexists.
Qed.
End Credential.

(** X22.  [findDatabaseService] returns the service registered under the
    first of its names that is registered at all: a service under a later
    name is not looked at, and the state is unchanged. *)
Theorem first_registered_service_is_used (s : State)
    (before after : list string) (name : string) (service : DbService) :
  possibleServices = before ++ name :: after →
  Forall (λ earlier, services s !! earlier = None) before →
  services s !! name = Some service →
  findDatabaseService s = (Ok service, s).
Proof.
  intros Hsplit Hbefore Hname. unfold findDatabaseService. rewrite Hsplit.
  by rewrite (first_service_skips_unregistered _ _ _ _ service).
Qed.

Lemma blank_password_is_reported_but_not_set_witness :
  processConfigSteps Sample.registry Cases.blank_form
    (Sample.configure_with "5f2c9a" Cases.blank_form) Sample.fresh
  = (Ok (<["__adminPassword" := VStr "   "]>
           (stock_delta Cases.blank_form
              (Sample.configure_with "5f2c9a" Cases.blank_form))),
     Sample.fresh).
Proof.
  apply (blank_password_is_reported_but_not_set (H:=Sample.sample_bcrypt)
           Cases.blank_form (Sample.configure_with "5f2c9a" Cases.blank_form)
           Sample.fresh "   "); by vm_compute.
Defined.

Lemma failed_update_rolls_nothing_back_witness :
  users (snd (updateAdminPassword (H:=Cases.rejecting_bcrypt) "secretpw" Sample.fresh))
  = [mkUser 1 "b7e1" "admin" "$2b$10$salt$secretpw"].
Proof.
  assert (updateAdminPassword (H:=Cases.rejecting_bcrypt) "secretpw" Sample.fresh
          = (Throw "Password verification failed",
             snd (updateAdminPassword (H:=Cases.rejecting_bcrypt) "secretpw"
                    Sample.fresh))) as Hrun by (vm_compute; reflexivity).
  destruct (failed_update_rolls_nothing_back (H:=Cases.rejecting_bcrypt)
              _ _ _ _ Hrun) as [Hsame|(_ & admin & Hadmin & Hstate & _)].
  - exfalso. apply (f_equal users) in Hsame. revert Hsame. by vm_compute.
  - rewrite Hstate. injection Hadmin as <-. reflexivity.
Defined.

Lemma first_registered_service_is_used_witness :
  findDatabaseService Cases.two_services
  = (Ok (mkDb true false true), Cases.two_services).
Proof.
  apply (first_registered_service_is_used Cases.two_services
           ["database"] ["sql"; "sqlite"; "database-access"] "db").
  - reflexivity.
  - apply Forall_cons. split; [by vm_compute|apply Forall_nil_2].
  - by vm_compute.
Defined.

Lemma no_known_service_name_no_update_witness :
  findDatabaseService Cases.unknown_service
  = (Throw "No database service found", Cases.unknown_service).
Proof.
  apply (no_known_service_name_no_update (H:=Sample.sample_bcrypt) "secretpw").
  intros name Hin. unfold possibleServices in Hin.
  repeat (apply elem_of_cons in Hin as [->|Hin]; [by vm_compute|]).
  by apply elem_of_nil in Hin.
Defined.

(** ** Start-up *)

Section StartupFacts.
Context (stringify : Obj → string).

Lemma load_setup_token_eq random s :
  load_setup_token stringify random s =
    (Ok tt,
     let s1 := set_tokenPath (Some setup_token_path) s in
     if truthy (token_value (token_on_disk stringify s))
     then set_setupToken (token_on_disk stringify s) s1
     else if decide (setup_token_path ∈ faulty s)
          then set_setupToken (Some random) s1
          else set_files (<[setup_token_path := Text random]> (files s))
                 (set_setupToken (Some random) s1)).
Proof.
  unfold load_setup_token, token_on_disk, mbind, M_bind, modify, try_catch,
    fs_existsSync, fs_readFileSync, gets, fs_mkdir, fs_writeFile.
  change (path_join config_dir "setup-token") with setup_token_path.
  simpl.
  destruct (files s !! setup_token_path) as [[t|o]|] eqn:Hfile; simpl;
    rewrite ?Hfile; simpl.
  - destruct (negb (String.eqb t EmptyString)); simpl; [done|].
    by destruct (decide (config_dir ∈ faulty s)); simpl; case_decide.
  - destruct (negb (String.eqb (stringify o) EmptyString)); simpl; [done|].
    by destruct (decide (config_dir ∈ faulty s)); simpl; case_decide.
  - by destruct (decide (config_dir ∈ faulty s)); simpl; case_decide.
Qed.

Lemma boot_eq `{Bcrypt} random s :
  boot stringify random s =
    let present := bool_decide (is_Some (files s !! setup_completed_path)) in
    (Ok (defaultConfigSteps, negb present),
     snd (load_setup_token stringify random (set_setupCompleted present s))).
Proof.
  unfold boot, init. rewrite registerDefaultConfigSteps_eq.
  unfold mbind, M_bind, modify, gets, mret, M_ret. rewrite isSetupCompleted_eq.
  cbv beta iota zeta. rewrite load_setup_token_eq. cbv zeta.
  set (present := bool_decide _).
  change (token_on_disk stringify (set_setupCompleted present s))
    with (token_on_disk stringify s).
  change (faulty (set_setupCompleted present s)) with (faulty s).
  destruct (truthy (token_value (token_on_disk stringify s))); [done|].
  by case_decide.
Qed.

(** X23.  A non-empty token file is reused at start-up: the token in
    memory is its content, the path is remembered, and the disk is not
    written. *)
Theorem existing_token_is_reused (random t : string) (s : State) :
  files s !! setup_token_path = Some (Text t) → t ≠ EmptyString →
  let s' := snd (load_setup_token stringify random s) in
  setupToken s' = Some t
  ∧ tokenPath s' = Some setup_token_path
  ∧ files s' = files s.
Proof.
  intros Hfile Ht. cbv zeta. rewrite load_setup_token_eq. cbv zeta.
  unfold token_on_disk. rewrite Hfile. simpl.
  by destruct (String.eqb_spec t EmptyString).
Qed.

(** X24.  Without a token file, or with an empty one, start-up takes the
    fresh random token and writes it to the token file; when the disk
    refuses the write the token is still the one in memory and start-up
    goes on, with nothing on disk. *)
Theorem missing_token_is_generated (random : string) (s : State) :
  files s !! setup_token_path = None
  ∨ files s !! setup_token_path = Some (Text EmptyString) →
  let s' := snd (load_setup_token stringify random s) in
  setupToken s' = Some random
  ∧ tokenPath s' = Some setup_token_path
  ∧ files s' = (if decide (setup_token_path ∈ faulty s) then files s
                else <[setup_token_path := Text random]> (files s)).
Proof.
  intros Hfile. cbv zeta. rewrite load_setup_token_eq. cbv zeta.
  unfold token_on_disk. by destruct Hfile as [-> | ->]; simpl; case_decide.
Qed.

(** X25.  On a disk that takes the token file, the token survives a
    restart: loading the token again after a first start-up changes
    nothing, whatever random token the second start-up drew. *)
Theorem token_survives_a_restart (random again : string) (s : State) :
  setup_token_path ∉ faulty s → random ≠ EmptyString →
  let s1 := snd (load_setup_token stringify random s) in
  load_setup_token stringify again s1 = (Ok tt, s1).
Proof.
  intros Hdisk Hrandom. cbv zeta. rewrite !load_setup_token_eq. cbv zeta.
  f_equal. cbn [snd].
  assert (truthy (VStr random) = true) as Hr.
  { simpl. by destruct (String.eqb_spec random EmptyString). }
  destruct (truthy (token_value (token_on_disk stringify s))) eqn:Htruthy.
  - assert (token_on_disk stringify
              (set_setupToken (token_on_disk stringify s)
                 (set_tokenPath (Some setup_token_path) s))
            = token_on_disk stringify s) as -> by done.
    rewrite Htruthy. by destruct s.
  - rewrite decide_False by done.
    assert (token_on_disk stringify
              (set_files (<[setup_token_path := Text random]> (files s))
                 (set_setupToken (Some random)
                    (set_tokenPath (Some setup_token_path) s))) = Some random) as ->.
    { unfold token_on_disk. simpl. by rewrite lookup_insert_eq. }
    cbn [token_value]. rewrite Hr. by destruct s.
Qed.

(** X26.  Start-up mirrors the disk.  It registers the three stock steps;
    the flag becomes the presence of the marker file, whatever the flag
    was, and [isSetupCompleted] agrees; the wizard is to be installed at
    the root exactly when the marker is missing; the token path is the
    path of the token file and, the random token being non-empty, the
    instance has a non-empty token; the configuration and the users are
    untouched. *)
Theorem boot_mirrors_the_disk `{Bcrypt} (random : string) (s : State) :
  let present := bool_decide (is_Some (files s !! setup_completed_path)) in
  let out := boot stringify random s in
  fst out = Ok (defaultConfigSteps, negb present)
  ∧ setupCompleted (snd out) = present
  ∧ isSetupCompleted (snd out) = (Ok present, snd out)
  ∧ tokenPath (snd out) = Some setup_token_path
  ∧ (random ≠ EmptyString → truthy (token_value (setupToken (snd out))) = true)
  ∧ config (snd out) = config s ∧ users (snd out) = users s.
Proof.
  cbv zeta. rewrite boot_eq. cbv zeta. cbn [fst snd].
  rewrite load_setup_token_eq, isSetupCompleted_eq. cbv zeta. cbn [snd].
  assert (setup_completed_path ≠ setup_token_path) as Hne by done.
  set (present := bool_decide _).
  change (token_on_disk stringify (set_setupCompleted present s))
    with (token_on_disk stringify s).
  destruct (truthy (token_value (token_on_disk stringify s))) eqn:Htruthy.
  - simpl. by repeat split.
  - case_decide; simpl; rewrite ?lookup_insert_ne by done; repeat split; try done.
    all: intros Hr; by destruct (String.eqb_spec random EmptyString).
Qed.

(** X27.  After a completed setup has removed the token file, a restart
    draws a new token and the old one is refused: the instance starts as
    completed with the wizard not at the root, a reset request that carries
    the old token is redirected to the token page and changes nothing, and
    a request for [/] is left to the rest of the application. *)
Theorem old_token_is_refused_after_a_restart `{Bcrypt}
    (random old : string) (s : State) (req : Request) :
  is_Some (files s !! setup_completed_path) →
  files s !! setup_token_path = None →
  random ≠ EmptyString → old ≠ random →
  path req = "/__setup/reset" → method req = "POST" →
  js_or (prop (query req) "token") (prop (body req) "token") = VStr old →
  let booted := boot stringify random s in
  fst booted = Ok (defaultConfigSteps, false)
  ∧ setupToken (snd booted) = Some random
  ∧ dispatch defaultConfigSteps false req (snd booted)
    = (Ok (Redirect "/__setup/token"), snd booted)
  ∧ dispatch defaultConfigSteps false (mkReq "/" "GET" ∅ ∅ (ip req)) (snd booted)
    = (Ok Unrouted, snd booted).
Proof.
  intros Hmarker Hfile Hrandom Hold Hpath Hmethod Htoken. cbv zeta.
  rewrite boot_eq. cbv zeta. cbn [fst snd].
  rewrite (bool_decide_eq_true_2 _ Hmarker).
  rewrite load_setup_token_eq. cbv zeta. cbn [snd].
  assert (token_on_disk stringify (set_setupCompleted true s) = None) as ->.
  { unfold token_on_disk. simpl. by rewrite Hfile. }
  cbn [token_value truthy].
  set (booted := if decide _ then _ else _).
  assert (setupToken booted = Some random) as Hmem.
  { unfold booted. by case_decide. }
  split; [done|]. split; [done|]. split; [|done].
  rewrite reset_route_is_gated by done.
  unfold serve_endpoint. simpl.
  unfold verifySetupToken. rewrite Hpath, Hmethod, Htoken, Hmem. simpl.
  unfold strict_eq. rewrite bool_decide_eq_false_2 by congruence.
  by rewrite orb_true_r.
Qed.
End StartupFacts.

Lemma existing_token_is_reused_witness :
  setupToken (snd (load_setup_token Cases.render "c0ffee" Sample.fresh))
  = Some "5f2c9a".
Proof.
  by apply (existing_token_is_reused Cases.render "c0ffee" "5f2c9a" Sample.fresh).
Defined.

Lemma missing_token_is_generated_witness :
  setupToken (snd (load_setup_token Cases.render "c0ffee" Cases.after_setup))
  = Some "c0ffee".
Proof.
  apply (missing_token_is_generated Cases.render "c0ffee" Cases.after_setup).
  left. by vm_compute.
Defined.

Lemma token_survives_a_restart_witness :
  load_setup_token Cases.render "decade"
    (snd (load_setup_token Cases.render "c0ffee" Cases.after_setup))
  = (Ok tt, snd (load_setup_token Cases.render "c0ffee" Cases.after_setup)).
Proof.
  apply (token_survives_a_restart Cases.render "c0ffee" "decade"
           Cases.after_setup); by vm_compute.
Defined.

Lemma old_token_is_refused_after_a_restart_witness :
  dispatch Sample.registry false (Sample.reset_with "5f2c9a")
    (snd (boot (H:=Sample.sample_bcrypt) Cases.render "c0ffee" Cases.after_setup))
  = (Ok (Redirect "/__setup/token"),
     snd (boot (H:=Sample.sample_bcrypt) Cases.render "c0ffee" Cases.after_setup)).
Proof.
  apply (old_token_is_refused_after_a_restart Cases.render (H:=Sample.sample_bcrypt)
           "c0ffee" "5f2c9a" Cases.after_setup
           (Sample.reset_with "5f2c9a")); try done; by vm_compute.
Defined.
